(** * Payment.tsx: order reconciliation and placement

    A shallow embedding of [src/pages/Payment.tsx]: the zod schemas of the
    payment instruments, the item source ([itemsForPayment]), the order
    [total], the [createOrder] mutation with its four backend calls, and
    the [onError] handler.

    Modelling conventions.
    - A JavaScript string is the list of its UTF-16 code units ([list N]);
      source literals are written with [lit "..."].
    - A numeric field of a row ([price], [quantity]) is [undefined],
      [null] or a number.  A number is an IEEE 754 binary64 value
      ([spec_float], with its zeros, infinities and NaN); [+] and [*]
      are the binary64 operations, rounding to nearest, ties to even.
      The theorems hold for every [spec_float], canonical or not.  An
      identity that is a number is an integer.
    - The backend is a record of four tables; every call either fails with
      the error the backend reports (leaving the tables as they were) or
      succeeds.  Which call fails is an input of the model ([Faults]).
    - Every backend call is logged, so that "no call was made" and the
      order of the calls can be stated.  The [console.warn] of a skipped
      item, the [loading] flag and the cache invalidation are left out. *)

From Stdlib Require Import List ZArith NArith Bool String Ascii Lia.
From Stdlib Require Import SpecFloat.
Import ListNotations.

Set Implicit Arguments.
Local Open Scope list_scope.

(* ================================================================== *)
(** ** JavaScript strings *)

Definition jsstring := list N.

Fixpoint lit (s : string) : jsstring :=
  match s with
  | EmptyString => []
  | String c s' => N_of_ascii c :: lit s'
  end.

Definition jsstring_eq_dec : forall a b : jsstring, {a = b} + {a <> b} :=
  list_eq_dec N.eq_dec.

Definition jsstring_eqb (a b : jsstring) : bool :=
  if jsstring_eq_dec a b then true else false.

(** [!s] for a string: only the empty string is falsy. *)
Definition str_truthy (s : jsstring) : bool :=
  match s with [] => false | _ :: _ => true end.

(* ================================================================== *)
(** ** Regular expressions

    The four patterns of the source are anchored at both ends and use
    only classes, concatenation, alternation, [+] and [{n}], so
    [RegExp.prototype.test] decides membership of the whole string in a
    regular language.  [test] decides it with derivatives; [Matches] is
    the language itself. *)

Module Regex.

Inductive regex : Type :=
| Void
| Eps
| Class (p : N -> bool)
| Cat (r1 r2 : regex)
| Alt (r1 r2 : regex)
| Star (r : regex).

Definition Plus (r : regex) : regex := Cat r (Star r).

Fixpoint Repeat (n : nat) (r : regex) : regex :=
  match n with
  | O => Eps
  | S n' => Cat r (Repeat n' r)
  end.

Definition Chr (c : ascii) : regex := Class (N.eqb (N_of_ascii c)).

Definition in_range (lo hi : ascii) (c : N) : bool :=
  (N_of_ascii lo <=? c)%N && (c <=? N_of_ascii hi)%N.

Definition Range (lo hi : ascii) : regex := Class (in_range lo hi).

Fixpoint nullable (r : regex) : bool :=
  match r with
  | Void => false
  | Eps => true
  | Class _ => false
  | Cat r1 r2 => nullable r1 && nullable r2
  | Alt r1 r2 => nullable r1 || nullable r2
  | Star _ => true
  end.

Fixpoint deriv (c : N) (r : regex) : regex :=
  match r with
  | Void => Void
  | Eps => Void
  | Class p => if p c then Eps else Void
  | Cat r1 r2 =>
      if nullable r1
      then Alt (Cat (deriv c r1) r2) (deriv c r2)
      else Cat (deriv c r1) r2
  | Alt r1 r2 => Alt (deriv c r1) (deriv c r2)
  | Star r1 => Cat (deriv c r1) (Star r1)
  end.

Fixpoint test (r : regex) (s : jsstring) : bool :=
  match s with
  | [] => nullable r
  | c :: s' => test (deriv c r) s'
  end.

Inductive Matches : regex -> jsstring -> Prop :=
| MEps : Matches Eps []
| MClass p c : p c = true -> Matches (Class p) [c]
| MCat r1 r2 s1 s2 :
    Matches r1 s1 -> Matches r2 s2 -> Matches (Cat r1 r2) (s1 ++ s2)
| MAltL r1 r2 s : Matches r1 s -> Matches (Alt r1 r2) s
| MAltR r1 r2 s : Matches r2 s -> Matches (Alt r1 r2) s
| MStarNil r : Matches (Star r) []
| MStarCons r s1 s2 :
    Matches r s1 -> Matches (Star r) s2 -> Matches (Star r) (s1 ++ s2).

End Regex.

(* ================================================================== *)
(** ** JavaScript values carried by rows *)

(** A number: a binary64 value. *)
Definition double : Type := spec_float.

(** [x + y] and [x * y] on numbers. *)
Definition js_add : double -> double -> double := SFadd 53 1024.

Definition js_mul : double -> double -> double := SFmul 53 1024.

(** The number an integer literal of the source denotes. *)
Definition of_Z (z : Z) : double := binary_normalize 53 1024 z 0 false.

(** [!!x] for a number: [+0], [-0] and [NaN] are falsy. *)
Definition number_truthy (x : double) : bool :=
  match x with
  | S754_zero _ => false
  | S754_nan => false
  | _ => true
  end.

(** A numeric field: [undefined], [null] or a number. *)
Inductive jsnum : Type :=
| NUndefined
| NNull
| Num (x : double).

Definition num_truthy (v : jsnum) : bool :=
  match v with
  | Num x => number_truthy x
  | _ => false
  end.

(** A numeric field holding the integer [z]. *)
Definition num (z : Z) : jsnum := Num (of_Z z).

(** [a || b] between two numeric fields. *)
Definition num_or (a b : jsnum) : jsnum :=
  if num_truthy a then a else b.

(** [a || d] where [d] is a number literal: the result is a number. *)
Definition num_or_lit (a : jsnum) (d : double) : double :=
  match a with
  | Num x => if number_truthy x then x else d
  | _ => d
  end.

(** An identity field: [undefined], [null], a number or a string. *)
Inductive jsid : Type :=
| IUndefined
| INull
| INum (z : Z)
| IStr (s : jsstring).

Definition id_truthy (v : jsid) : bool :=
  match v with
  | INum z => negb (z =? 0)%Z
  | IStr s => str_truthy s
  | _ => false
  end.

Definition id_or (a b : jsid) : jsid :=
  if id_truthy a then a else b.

(** The comparison of [Array.prototype.includes] (SameValueZero). *)
Definition id_eqb (a b : jsid) : bool :=
  match a, b with
  | IUndefined, IUndefined => true
  | INull, INull => true
  | INum x, INum y => (x =? y)%Z
  | IStr s, IStr t => jsstring_eqb s t
  | _, _ => false
  end.

Definition includes (l : list jsid) (v : jsid) : bool :=
  existsb (id_eqb v) l.

(** [Array.prototype.filter(Boolean)] on an array of objects and [null]s. *)
Fixpoint filter_Boolean {A : Type} (l : list (option A)) : list A :=
  match l with
  | [] => []
  | None :: l' => filter_Boolean l'
  | Some a :: l' => a :: filter_Boolean l'
  end.

(* ================================================================== *)
(** ** Rows and tables *)

(** The joined [products] object of a cart row. *)
Module Product.
Record t : Type := mk { price : jsnum }.
End Product.

(** An element of [itemsForPayment]: a cart row joined with its product,
    or a product row with a [quantity].  A field the object does not have
    is [undefined]; [products = None] is a missing or [null] join. *)
Module Item.
Record t : Type := mk {
  product_id : jsid;
  id : jsid;
  price : jsnum;
  quantity : jsnum;
  products : option Product.t
}.
(** The object with no fields (the spread of [undefined]). *)
Definition empty : t := mk IUndefined IUndefined NUndefined NUndefined None.
Definition set_quantity (q : jsnum) (i : t) : t :=
  mk (product_id i) (id i) (price i) q (products i).
End Item.

Inductive PaymentMethod : Type := upi | card | netbanking | cod.

Module Order.
Record t : Type := mk {
  id : N;
  user_id : jsstring;
  total_amount : double;
  payment_method : PaymentMethod;
  payment_status : jsstring;
  delivery_status : jsstring;
  address : jsstring;
  phone : jsstring
}.
End Order.

Module OrderItem.
Record t : Type := mk {
  order_id : N;
  product_id : jsid;
  quantity : jsnum;
  price : double
}.
End OrderItem.

Module ProductRow.
Record t : Type := mk { id : jsid }.
End ProductRow.

Module CartRow.
Record t : Type := mk { user_id : jsstring; row : Item.t }.
End CartRow.

(** The four tables the page talks to.  [next_order_id] is the identity
    the backend gives to the next inserted order. *)
Record DB : Type := mkDB {
  orders : list Order.t;
  order_items : list OrderItem.t;
  cart_items : list CartRow.t;
  products : list ProductRow.t;
  next_order_id : N
}.

(** The backend calls of [createOrder], in the order of the source. *)
Inductive Call : Type :=
| InsertOrder
| SelectProductIds
| InsertOrderItems
| DeleteCartItems.

Record World : Type := mkWorld {
  db : DB;
  calls : list Call
}.

(** The error each backend call answers with, if any. *)
Record Faults : Type := mkFaults {
  orderError : option jsstring;
  prodErr : option jsstring;
  itemsError : option jsstring;
  clearError : option jsstring
}.

Definition no_faults : Faults := mkFaults None None None None.

(* ================================================================== *)
(** ** Exceptions and the mutation monad *)

(** What [createOrder] can throw: a [ZodError] with its non-empty
    [errors] (messages, in issue order), or an error with a [message]. *)
Inductive exn : Type :=
| ZodError (first : jsstring) (rest : list jsstring)
| Error (message : jsstring).

Inductive outcome (A : Type) : Type :=
| Returned (a : A)
| Thrown (e : exn).
Arguments Returned {A} a.
Arguments Thrown {A} e.

Definition M (A : Type) : Type := World -> outcome A * World.

Definition ret {A} (a : A) : M A := fun w => (Returned a, w).

Definition throw {A} (e : exn) : M A := fun w => (Thrown e, w).

Definition bind {A B} (m : M A) (k : A -> M B) : M B :=
  fun w =>
    match m w with
    | (Returned a, w') => k a w'
    | (Thrown e, w') => (Thrown e, w')
    end.

Notation "x <- m ;; k" := (bind m (fun x => k))
  (at level 61, m at next level, right associativity).
Notation "m ;;; k" := (bind m (fun _ => k))
  (at level 61, right associativity).

(** A backend call: logged, then answered with [{data, error}]. *)
Definition request {A} (c : Call) (err : option jsstring)
    (run : DB -> A * DB) : M (A + jsstring) :=
  fun w =>
    let w1 := mkWorld (db w) (calls w ++ [c]) in
    match err with
    | Some e => (Returned (inr e), w1)
    | None =>
        let (a, d) := run (db w) in
        (Returned (inl a), mkWorld d (calls w1))
    end.

(** [if (error) throw error]. *)
Definition throw_if_error {A} (r : A + jsstring) : M A :=
  match r with
  | inl a => ret a
  | inr e => throw (Error e)
  end.

(* ================================================================== *)
(** ** The schemas *)

Import Regex.

Definition banks : list jsstring :=
  [ lit "State Bank of India"; lit "HDFC Bank"; lit "ICICI Bank";
    lit "Axis Bank"; lit "Kotak Mahindra Bank";
    lit "Punjab National Bank"; lit "Bank of Baroda"; lit "Canara Bank";
    lit "Union Bank of India"; lit "Bank of India" ].

(** [\d] *)
Definition digit (c : N) : bool := in_range "0" "9" c.

(** [\w] *)
Definition word (c : N) : bool :=
  in_range "A" "Z" c || in_range "a" "z" c || digit c
  || N.eqb (N_of_ascii "_") c.

(** [[\w.-]] *)
Definition word_dot_dash (c : N) : bool :=
  word c || N.eqb (N_of_ascii ".") c || N.eqb (N_of_ascii "-") c.

(** [\s] *)
Definition space (c : N) : bool :=
  ((9 <=? c) && (c <=? 13) || (c =? 32) || (c =? 160) || (c =? 5760)
   || (8192 <=? c) && (c <=? 8202) || (c =? 8232) || (c =? 8233)
   || (c =? 8239) || (c =? 8287) || (c =? 12288) || (c =? 65279))%N.

(** [/^[\w.-]+@[\w.-]+$/] *)
Definition upiId_re : regex :=
  Cat (Plus (Class word_dot_dash)) (Cat (Chr "@") (Plus (Class word_dot_dash))).

(** [/^\d{16}$/] *)
Definition cardNumber_re : regex := Repeat 16 (Class digit).

(** [/^(0[1-9]|1[0-2])\/\d{2}$/] *)
Definition expiry_re : regex :=
  Cat (Alt (Cat (Chr "0") (Range "1" "9")) (Cat (Chr "1") (Range "0" "2")))
      (Cat (Chr "/") (Repeat 2 (Class digit))).

(** [/^\d{3}$/] *)
Definition cvv_re : regex := Repeat 3 (Class digit).

(** [z.string().regex(re, message)] on a string: the issues it raises. *)
Definition zod_regex (re : regex) (message : jsstring) (v : jsstring)
    : list jsstring :=
  if test re v then [] else [message].

(** [schema.parse]: throws a [ZodError] holding the issues of all
    fields, in the order of the fields, when there is one. *)
Definition zod_parse (issues : list jsstring) : M unit :=
  match issues with
  | [] => ret tt
  | i :: rest => throw (ZodError i rest)
  end.

Definition upiSchema_issues (upiId : jsstring) : list jsstring :=
  zod_regex upiId_re (lit "Invalid UPI ID format") upiId.

Definition cardSchema_issues (cardNumber expiry cvv : jsstring)
    : list jsstring :=
  zod_regex cardNumber_re (lit "Card number must be 16 digits") cardNumber
  ++ zod_regex expiry_re (lit "Invalid expiry format (MM/YY)") expiry
  ++ zod_regex cvv_re (lit "CVV must be 3 digits") cvv.

(* ================================================================== *)
(** ** The page *)

Record User : Type := mkUser { uid : jsstring }.

(** [location.state] as the page reads it. *)
Record LocationState : Type := mkLocationState {
  buyNow : bool;
  product : option Item.t;
  quantity : jsnum
}.

(** [location.state || {}] *)
Definition buyNowState (ls : option LocationState) : LocationState :=
  match ls with
  | Some s => s
  | None => mkLocationState false None NUndefined
  end.

(** Everything [Payment] reads during one render: the hooks' values and
    the component state. *)
Record Page : Type := mkPage {
  user : option User;
  location_state : option LocationState;
  cartItems : option (list Item.t);
  paymentMethod : PaymentMethod;
  upiId : jsstring;
  cardNumber : jsstring;
  expiry : jsstring;
  cvv : jsstring;
  selectedBank : jsstring;
  address : jsstring;
  phone : jsstring
}.

Definition isBuyNow (p : Page) : bool := buyNow (buyNowState (location_state p)).

Definition buyNowProduct (p : Page) : option Item.t :=
  product (buyNowState (location_state p)).

Definition buyNowQuantity (p : Page) : double :=
  num_or_lit (quantity (buyNowState (location_state p))) (of_Z 1).

(** [{ ...buyNowProduct, quantity: buyNowQuantity }] *)
Definition buyNowItem (p : Page) : Item.t :=
  Item.set_quantity (Num (buyNowQuantity p))
    match buyNowProduct p with
    | Some prod => prod
    | None => Item.empty
    end.

Definition itemsForPayment (p : Page) : list Item.t :=
  if isBuyNow p then [buyNowItem p]
  else match cartItems p with
       | Some items => items
       | None => []
       end.

(** [item.products?.price] *)
Definition products_price (item : Item.t) : jsnum :=
  match Item.products item with
  | Some prod => Product.price prod
  | None => NUndefined
  end.

(** [item.price || item.products?.price || 0] *)
Definition unit_price (item : Item.t) : double :=
  num_or_lit (num_or (Item.price item) (products_price item)) (of_Z 0).

Definition total_of (items : list Item.t) : double :=
  fold_left
    (fun sum item =>
       js_add sum
         (js_mul (unit_price item)
                 (num_or_lit (Item.quantity item) (of_Z 1))))
    items (of_Z 0).

Definition total (p : Page) : double := total_of (itemsForPayment p).

(** [onChange] of the card-number input: [value.replace(/\s/g, '')]. *)
Definition cardNumber_onChange (value : jsstring) : jsstring :=
  filter (fun c => negb (space c)) value.

(** The values the bank [Select] can hand to [setSelectedBank]: one
    [SelectItem] per element of [banks]. *)
Inductive selectable : jsstring -> Prop :=
| selectable_initial : selectable (lit "")
| selectable_item b : In b banks -> selectable b.

(** The callback of [orderItems]' [map]. *)
Definition order_item_of (order_id : N) (validProductIds : list jsid)
    (item : Item.t) : option OrderItem.t :=
  let prodId := id_or (Item.product_id item) (Item.id item) in
  if negb (includes validProductIds prodId) then None
  else Some (OrderItem.mk order_id prodId (Item.quantity item)
               (unit_price item)).

Definition orderItems_of (order_id : N) (validProductIds : list jsid)
    (items : list Item.t) : list OrderItem.t :=
  filter_Boolean (map (order_item_of order_id validProductIds) items).

(** The payment-method branch of [mutationFn]. *)
Definition validate_payment (p : Page) : M unit :=
  match paymentMethod p with
  | upi => zod_parse (upiSchema_issues (upiId p))
  | card => zod_parse (cardSchema_issues (cardNumber p) (expiry p) (cvv p))
  | netbanking =>
      if negb (str_truthy (selectedBank p))
      then throw (Error (lit "Please select a bank"))
      else ret tt
  | cod => ret tt
  end.

Definition insert_order (o : N -> Order.t) (d : DB) : Order.t * DB :=
  let row := o (next_order_id d) in
  (row, mkDB (orders d ++ [row]) (order_items d) (cart_items d)
             (products d) (N.succ (next_order_id d))).

Definition insert_order_items (l : list OrderItem.t) (d : DB) : unit * DB :=
  (tt, mkDB (orders d) (order_items d ++ l) (cart_items d)
            (products d) (next_order_id d)).

Definition delete_cart_items (u : jsstring) (d : DB) : unit * DB :=
  (tt, mkDB (orders d) (order_items d)
            (filter (fun r => negb (jsstring_eqb (CartRow.user_id r) u))
                    (cart_items d))
            (products d) (next_order_id d)).

(** The object given to [from('orders').insert], with the identity the
    backend adds to it. *)
Definition order_fields (p : Page) (u : User) (i : N) : Order.t :=
  Order.mk i (uid u) (total p) (paymentMethod p)
           (lit "completed") (lit "ordered") (address p) (phone p).

(** [createOrder]'s [mutationFn]. *)
Definition mutationFn (f : Faults) (p : Page) : M Order.t :=
  match user p with
  | None => throw (Error (lit "Cart is empty"))
  | Some u =>
    if (List.length (itemsForPayment p) =? 0)%nat
    then throw (Error (lit "Cart is empty"))
    else if negb (str_truthy (address p))
    then throw (Error (lit "Please enter your address"))
    else if negb (str_truthy (phone p))
    then throw (Error (lit "Please enter your phone number"))
    else
      validate_payment p ;;;
      r1 <- request InsertOrder (orderError f)
              (insert_order (order_fields p u)) ;;
      order <- throw_if_error r1 ;;
      r2 <- request SelectProductIds (prodErr f)
              (fun d => (products d, d)) ;;
      productsInDb <- throw_if_error r2 ;;
      let validProductIds := map ProductRow.id productsInDb in
      let orderItems :=
        orderItems_of (Order.id order) validProductIds (itemsForPayment p) in
      if (List.length orderItems =? 0)%nat
      then throw (Error (lit "No valid products found for this order"))
      else
        r3 <- request InsertOrderItems (itemsError f)
                (insert_order_items orderItems) ;;
        throw_if_error r3 ;;;
        (if negb (isBuyNow p)
         then r4 <- request DeleteCartItems (clearError f)
                      (delete_cart_items (uid u)) ;;
              throw_if_error r4
         else ret tt) ;;;
        ret order
  end.

(** What the user is shown: the toast, and on success the order the
    confirmation page is opened for. *)
Inductive Shown : Type :=
| toast_success (message : jsstring) (orderId : N)
| toast_error (message : jsstring).

Definition onSuccess (order : Order.t) : Shown :=
  toast_success (lit "Order placed successfully!") (Order.id order).

Definition onError (error : exn) : Shown :=
  match error with
  | ZodError first _ => toast_error first
  | Error message =>
      toast_error (if str_truthy message then message
                   else lit "Failed to place order")
  end.

(** [handlePayment]: run the mutation, then its callback. *)
Definition handlePayment (f : Faults) (p : Page) (w : World) : Shown * World :=
  match mutationFn f p w with
  | (Returned order, w') => (onSuccess order, w')
  | (Thrown e, w') => (onError e, w')
  end.

(** The early returns of the component body: where it navigates instead
    of rendering the form with its [Pay Now] button. *)
Inductive View : Type :=
| navigate (path : jsstring)
| form.

Definition render (p : Page) : View :=
  match user p with
  | None => navigate (lit "/signin")
  | Some _ =>
    if negb (isBuyNow p)
       && match cartItems p with
          | None => true
          | Some items => (List.length items =? 0)%nat
          end
    then navigate (lit "/cart")
    else if isBuyNow p && (List.length (itemsForPayment p) =? 0)%nat
    then navigate (lit "/products")
    else form
  end.

(* ================================================================== *)
(** ** What the schemas accept, in the words of the specification *)

(** [local-part@domain-part], both parts non-empty and made of word
    characters, dots and hyphens. *)
Definition upi_handle (s : jsstring) : Prop :=
  exists local domain,
    s = local ++ lit "@" ++ domain /\
    local <> [] /\ domain <> [] /\
    forallb word_dot_dash local = true /\
    forallb word_dot_dash domain = true.

Definition digits (n : nat) (s : jsstring) : Prop :=
  List.length s = n /\ forallb digit s = true.

(** The number a digit character stands for. *)
Definition digit_value (c : N) : N := c - N_of_ascii "0".

(** [MM/YY] with the month between 01 and 12. *)
Definition expiry_MM_YY (s : jsstring) : Prop :=
  exists m1 m2 y1 y2,
    s = [m1; m2; N_of_ascii "/"; y1; y2] /\
    digit m1 = true /\ digit m2 = true /\
    digit y1 = true /\ digit y2 = true /\
    (1 <= 10 * digit_value m1 + digit_value m2 <= 12)%N.

(* ================================================================== *)
(** ** Vocabulary of the claims *)

(** The checks of [mutationFn] that come before the first backend call
    all pass. *)
Definition validated (p : Page) (u : User) (w : World) : Prop :=
  user p = Some u /\ itemsForPayment p <> [] /\
  address p <> [] /\ phone p <> [] /\
  validate_payment p w = (Returned tt, w).

(** The resolved product identity of a candidate. *)
Definition resolved_id (item : Item.t) : jsid :=
  id_or (Item.product_id item) (Item.id item).

(** The line persisted for a kept candidate. *)
Definition line_of (order_id : N) (item : Item.t) : OrderItem.t :=
  OrderItem.mk order_id (resolved_id item) (Item.quantity item)
               (unit_price item).

(** The reconciler discards the candidate. *)
Definition discarded (valid : list jsid) (item : Item.t) : Prop :=
  includes valid (resolved_id item) = false.

(** The sum of a list of numbers, accumulated from 0 in list order. *)
Definition js_sum (l : list double) : double :=
  fold_left js_add l (of_Z 0).

(** The number a field holds when it holds one that is neither zero nor
    NaN. *)
Definition nonzero_number (v : jsnum) : option double :=
  match v with
  | Num (S754_infinity s) => Some (S754_infinity s)
  | Num (S754_finite s m e) => Some (S754_finite s m e)
  | _ => None
  end.

(** The unit price in words: the candidate's own price when that is a
    non-zero number, else the joined product's price when that is a
    non-zero number, else zero. *)
Definition own_or_joined_price (item : Item.t) : double :=
  match nonzero_number (Item.price item) with
  | Some x => x
  | None =>
      match Item.products item with
      | Some prod =>
          match nonzero_number (Product.price prod) with
          | Some y => y
          | None => of_Z 0
          end
      | None => of_Z 0
      end
  end.

(** The resolved identity in words: the product reference unless it is
    missing, [null], 0 or the empty string, and then the bare identity. *)
Definition reference_or_identity (item : Item.t) : jsid :=
  match Item.product_id item with
  | IUndefined => Item.id item
  | INull => Item.id item
  | INum Z0 => Item.id item
  | IStr [] => Item.id item
  | pid => pid
  end.

(** The quantity the total counts, in words: the candidate's quantity
    when that is a non-zero number, else 1. *)
Definition quantity_or_one (item : Item.t) : double :=
  match nonzero_number (Item.quantity item) with
  | Some q => q
  | None => of_Z 1
  end.

(** The line of a kept candidate, in words. *)
Definition line_in_words (order_id : N) (item : Item.t) : OrderItem.t :=
  OrderItem.mk order_id (reference_or_identity item) (Item.quantity item)
               (own_or_joined_price item).

(** The resolved identity as the specification words it: the product
    reference when the field is there at all, else the bare identity. *)
Definition claimed_identity (item : Item.t) : jsid :=
  match Item.product_id item with
  | IUndefined => Item.id item
  | INull => Item.id item
  | pid => pid
  end.

(** The unit price as the specification words it: the price carried on
    the candidate when there is one, else the joined product's, else
    zero. *)
Definition claimed_price (item : Item.t) : double :=
  match Item.price item with
  | Num x => x
  | _ =>
      match Item.products item with
      | Some prod =>
          match Product.price prod with
          | Num y => y
          | _ => of_Z 0
          end
      | None => of_Z 0
      end
  end.

(** The sum of unit price times quantity over the candidates, as the
    specification writes the total, accumulated in list order: defined
    when every quantity is a number. *)
Fixpoint price_times_quantity_from (acc : double) (items : list Item.t)
    : option double :=
  match items with
  | [] => Some acc
  | item :: items' =>
      match Item.quantity item with
      | Num q =>
          price_times_quantity_from
            (js_add acc (js_mul (own_or_joined_price item) q)) items'
      | _ => None
      end
  end.

Definition price_times_quantity (items : list Item.t) : option double :=
  price_times_quantity_from (of_Z 0) items.

(** The number a persisted quantity amounts to; a missing one to none. *)
Definition quantity_number (q : jsnum) : double :=
  match q with
  | Num x => x
  | _ => of_Z 0
  end.

(** The sum of unit price times quantity over persisted lines. *)
Definition lines_value (lines : list OrderItem.t) : double :=
  js_sum (map (fun l => js_mul (OrderItem.price l)
                               (quantity_number (OrderItem.quantity l)))
              lines).

(** A quantity the total replaces by 1: missing, [null], zero or NaN. *)
Definition no_quantity (q : jsnum) : Prop :=
  q = NUndefined \/ q = NNull \/
  (exists s, q = Num (S754_zero s)) \/ q = Num S754_nan.

(** A quantity that is neither of the infinities. *)
Definition not_infinite (q : jsnum) : Prop :=
  forall s, q <> Num (S754_infinity s).

(** The catalogue snapshot an attempt started in [w] reads. *)
Definition catalog (w : World) : list jsid :=
  map ProductRow.id (products (db w)).

(** The fixed order of the backend calls. *)
Definition call_sequence : list Call :=
  [InsertOrder; SelectProductIds; InsertOrderItems; DeleteCartItems].

(* ================================================================== *)
(** ** Sample inputs *)

Definition sample_user : User := mkUser (lit "user-1").

(** A cart of two rows for products 1 and 2, both in the catalogue. *)
Definition sample_cart : list Item.t :=
  [ Item.mk (INum 1) (INum 11) NUndefined (num 2)
            (Some (Product.mk (num 100)));
    Item.mk (INum 2) (INum 12) NUndefined (num 1)
            (Some (Product.mk (num 50))) ].

Definition sample_db : DB :=
  mkDB [] []
       [ CartRow.mk (lit "user-1") (nth 0 sample_cart Item.empty);
         CartRow.mk (lit "user-1") (nth 1 sample_cart Item.empty);
         CartRow.mk (lit "user-2") (nth 0 sample_cart Item.empty) ]
       [ ProductRow.mk (INum 1); ProductRow.mk (INum 2) ]
       1.

Definition sample_world : World := mkWorld sample_db [].

(** A cart checkout with the given payment fields. *)
Definition sample_page (m : PaymentMethod)
    (upiId cardNumber expiry cvv selectedBank : jsstring) : Page :=
  mkPage (Some sample_user) None (Some sample_cart) m
         upiId cardNumber expiry cvv selectedBank
         (lit "12 MG Road") (lit "9876543210").

(** The form submitted with nothing filled in. *)
Definition missing_address_page : Page :=
  mkPage (Some sample_user) None (Some sample_cart) upi [] [] [] [] [] [] [].

(** A cash-on-delivery checkout of the sample cart. *)
Definition cod_page : Page := sample_page cod [] [] [] [] [].

(** The backend refuses the batch of lines. *)
Definition lines_refused : Faults :=
  mkFaults None None (Some (lit "insert failed")) None.

(** A cart whose only row is for product 7, which the catalogue of
    [sample_db] does not have. *)
Definition unknown_cart : list Item.t :=
  [ Item.mk (INum 7) (INum 11) NUndefined (num 1)
            (Some (Product.mk (num 100))) ].

Definition unknown_products_page : Page :=
  mkPage (Some sample_user) None (Some unknown_cart) cod
         [] [] [] [] [] (lit "12 MG Road") (lit "9876543210").

(** The candidates [{price: 100, quantity: 2}] and
    [{price: 50, quantity: 1}], for products 1 and 2. *)
Definition two_candidates : list Item.t :=
  [ Item.mk IUndefined (INum 1) (num 100) (num 2) None;
    Item.mk IUndefined (INum 2) (num 50) (num 1) None ].

(** A candidate of product 1 with its own price 0 and a joined product
    of price 50; a candidate with the product reference 0 and the bare
    identity 5. *)
Definition zero_priced : Item.t :=
  Item.mk (INum 1) (INum 11) (num 0) (num 1) (Some (Product.mk (num 50))).

Definition zero_referenced : Item.t :=
  Item.mk (INum 0) (INum 5) (num 10) (num 1) None.

(** The numbers 2^53, 1 and 1, which add up to 2^53 + 2 but, added one
    after the other in binary64, to 2^53. *)
Definition large_candidates : list Item.t :=
  [ Item.mk IUndefined (INum 1) (num (2 ^ 53)) (num 1) None;
    Item.mk IUndefined (INum 2) (num 1) (num 1) None;
    Item.mk IUndefined (INum 2) (num 1) (num 1) None ].

(** A cart row for product 1, price 100, with quantity 0. *)
Definition zero_quantity_cart : list Item.t :=
  [ Item.mk (INum 1) (INum 11) NUndefined (num 0)
            (Some (Product.mk (num 100))) ].

Definition zero_quantity_page : Page :=
  mkPage (Some sample_user) None (Some zero_quantity_cart) cod
         [] [] [] [] [] (lit "12 MG Road") (lit "9876543210").

(** Buy-now of product 1 with the given quantity in [location.state]. *)
Definition buy_now_page (q : jsnum) : Page :=
  mkPage (Some sample_user)
         (Some (mkLocationState true
                  (Some (Item.mk IUndefined (INum 1) (num 100) NUndefined None))
                  q))
         None cod [] [] [] [] [] (lit "12 MG Road") (lit "9876543210").

(* ================================================================== *)
(** ** The cart query and the order summary *)

(** The row test of [.eq('user_id', user.id)]. *)
Definition owned_by (u : User) (r : CartRow.t) : bool :=
  jsstring_eqb (CartRow.user_id r) (uid u).

(** [queryFn] of the cart query.  [error] is what the select answers
    with when it fails; a [CartRow.row] is the row as the select returns
    it, with its joined [products]. *)
Definition queryFn (error : option jsstring) (p : Page) (d : DB)
    : outcome (list Item.t) :=
  match user p with
  | None => Returned []
  | Some u =>
      if isBuyNow p then Returned []
      else match error with
           | Some e => Thrown (Error e)
           | None => Returned (map CartRow.row (filter (owned_by u) (cart_items d)))
           end
  end.

(** [enabled: !!user && !isBuyNow] *)
Definition query_enabled (p : Page) : bool :=
  match user p with
  | None => false
  | Some _ => negb (isBuyNow p)
  end.




(** The backend answers every call. *)
Definition all_succeed (f : Faults) : Prop :=
  orderError f = None /\ prodErr f = None /\
  itemsError f = None /\ clearError f = None.

(** The page with nobody signed in. *)
Definition signed_out_page : Page :=
  mkPage None None None upi [] [] [] [] [] [] [].

(** Buy-now entered with no product in [location.state]. *)
Definition buy_now_no_product_page : Page :=
  mkPage (Some sample_user)
         (Some (mkLocationState true None NUndefined))
         None cod [] [] [] [] [] (lit "12 MG Road") (lit "9876543210").

(* ================================================================== *)
(** * Regular expressions: the matcher decides the language *)

Create HintDb regex.
#[local] Hint Constructors Matches : regex.

Lemma Matches_Class_inv p s :
  Matches (Class p) s <-> exists c, s = [c] /\ p c = true.
Proof.
  split.
  - intro H; inversion H; subst; eauto.
  - intros (c & -> & H). now constructor.
Qed.

Lemma Matches_Cat_inv r1 r2 s :
  Matches (Cat r1 r2) s <->
  exists s1 s2, s = s1 ++ s2 /\ Matches r1 s1 /\ Matches r2 s2.
Proof.
  split.
  - intro H; inversion H; subst; eauto.
  - intros (s1 & s2 & -> & H1 & H2). now constructor.
Qed.

Lemma Matches_Alt_inv r1 r2 s :
  Matches (Alt r1 r2) s <-> Matches r1 s \/ Matches r2 s.
Proof.
  split.
  - intro H; inversion H; subst; auto.
  - intros [H|H]; [now apply MAltL | now apply MAltR].
Qed.

Lemma nullable_Matches r : nullable r = true <-> Matches r [].
Proof.
  induction r; simpl.
  - split; intro H; [discriminate | inversion H].
  - split; auto with regex.
  - split; intro H; [discriminate | inversion H].
  - rewrite andb_true_iff, Matches_Cat_inv, IHr1, IHr2. split.
    + intros [H1 H2]. exists [], []. auto.
    + intros (s1 & s2 & E & H1 & H2). symmetry in E.
      apply app_eq_nil in E as [-> ->]. auto.
  - rewrite orb_true_iff, Matches_Alt_inv, IHr1, IHr2. tauto.
  - split; auto with regex.
Qed.

Lemma Matches_Star_cons r c s :
  Matches (Star r) (c :: s) ->
  exists s1 s2, s = s1 ++ s2 /\ Matches r (c :: s1) /\ Matches (Star r) s2.
Proof.
  intro H. remember (Star r) as r' eqn:Er. remember (c :: s) as w eqn:Ew.
  revert s Ew. induction H; intros s0 Ew; try discriminate.
  injection Er as ->. destruct s1 as [|c1 s1'].
  - simpl in Ew. auto.
  - simpl in Ew. injection Ew as -> <-. eauto.
Qed.

Lemma deriv_Matches r : forall c s, Matches (deriv c r) s <-> Matches r (c :: s).
Proof.
  induction r; intros c s; simpl.
  - split; intro H; inversion H.
  - split; intro H; inversion H.
  - rewrite Matches_Class_inv. destruct (p c) eqn:E; split.
    + intro H; inversion H; subst. eauto.
    + intros (c' & Ec & Hc). injection Ec as _ ->. constructor.
    + intro H; inversion H.
    + intros (c' & Ec & Hc). injection Ec as <- _. congruence.
  - assert (Hcat : Matches (Cat (deriv c r1) r2) s <->
                   exists s1 s2, s = s1 ++ s2 /\
                                 Matches r1 (c :: s1) /\ Matches r2 s2).
    { rewrite Matches_Cat_inv. split; intros (s1 & s2 & E & H1 & H2);
        exists s1, s2; repeat split; auto; now apply IHr1. }
    assert (Hsplit : Matches (Cat r1 r2) (c :: s) <->
                     (exists s1 s2, s = s1 ++ s2 /\
                                    Matches r1 (c :: s1) /\ Matches r2 s2) \/
                     (Matches r1 [] /\ Matches r2 (c :: s))).
    { rewrite Matches_Cat_inv. split.
      - intros (s1 & s2 & E & H1 & H2). destruct s1 as [|c1 s1'].
        + simpl in E. subst s2. auto.
        + simpl in E. injection E as <- ->. left. eauto.
      - intros [(s1 & s2 & -> & H1 & H2) | [H1 H2]].
        + exists (c :: s1), s2. auto.
        + exists [], (c :: s). auto. }
    rewrite Hsplit. destruct (nullable r1) eqn:En.
    + rewrite Matches_Alt_inv, Hcat, IHr2.
      assert (Matches r1 []) by now apply nullable_Matches. tauto.
    + rewrite Hcat. split; [tauto |]. intros [H|[H _]]; [assumption |].
      apply nullable_Matches in H. congruence.
  - rewrite !Matches_Alt_inv, IHr1, IHr2. tauto.
  - rewrite Matches_Cat_inv. split.
    + intros (s1 & s2 & -> & H1 & H2).
      change (c :: s1 ++ s2) with ((c :: s1) ++ s2).
      constructor; [now apply IHr | assumption].
    + intro H. apply Matches_Star_cons in H as (s1 & s2 & -> & H1 & H2).
      exists s1, s2. repeat split; [now apply IHr | assumption].
Qed.

Lemma test_Matches s : forall r, test r s = true <-> Matches r s.
Proof.
  induction s as [|c s IH]; intro r; simpl.
  - apply nullable_Matches.
  - rewrite IH. apply deriv_Matches.
Qed.

(** What the shapes used by the source accept. *)

Lemma Matches_Repeat_Class p n : forall s,
  Matches (Repeat n (Class p)) s <->
  List.length s = n /\ forallb p s = true.
Proof.
  induction n as [|n IH]; intro s; simpl.
  - split.
    + intro H; inversion H; auto.
    + intros [H _]. apply length_zero_iff_nil in H as ->. constructor.
  - rewrite Matches_Cat_inv. split.
    + intros (s1 & s2 & -> & H1 & H2).
      apply Matches_Class_inv in H1 as (c & -> & Hc).
      apply IH in H2 as [Hl Hf]. simpl. rewrite Hc, Hf. auto.
    + intros [Hl Hf]. destruct s as [|c s]; [discriminate |].
      simpl in Hl, Hf. apply andb_true_iff in Hf as [Hc Hf].
      exists [c], s. repeat split.
      * now constructor.
      * apply IH. split; [lia | assumption].
Qed.

Lemma Matches_Star_Class p s :
  Matches (Star (Class p)) s <-> forallb p s = true.
Proof.
  split.
  - intro H. remember (Star (Class p)) as r eqn:Er.
    induction H; try discriminate; [reflexivity |].
    injection Er as ->. inversion H; subst. simpl.
    rewrite IHMatches2 by reflexivity. now rewrite andb_true_r.
  - induction s as [|c s IH]; simpl; intro H; [constructor |].
    apply andb_true_iff in H as [Hc Hs].
    change (c :: s) with ([c] ++ s). constructor; [now constructor | auto].
Qed.

Lemma Matches_Plus_Class p s :
  Matches (Plus (Class p)) s <-> s <> [] /\ forallb p s = true.
Proof.
  unfold Plus. rewrite Matches_Cat_inv. split.
  - intros (s1 & s2 & -> & H1 & H2).
    apply Matches_Class_inv in H1 as (c & -> & Hc).
    apply Matches_Star_Class in H2. simpl. rewrite Hc, H2.
    split; [discriminate | reflexivity].
  - intros [Hne Hf]. destruct s as [|c s]; [congruence |].
    simpl in Hf. apply andb_true_iff in Hf as [Hc Hs].
    exists [c], s. repeat split; [now constructor |].
    now apply Matches_Star_Class.
Qed.

(* ================================================================== *)
(** * Payment input validation *)

Lemma Chr_inv (a : ascii) (s : jsstring) :
  Matches (Chr a) s <-> s = [N_of_ascii a].
Proof.
  unfold Chr. rewrite Matches_Class_inv. split.
  - intros (c & -> & H). apply N.eqb_eq in H. now subst.
  - intros ->. exists (N_of_ascii a). split; [reflexivity | apply N.eqb_refl].
Qed.

Lemma upiId_re_spec (s : jsstring) : test upiId_re s = true <-> upi_handle s.
Proof.
  rewrite test_Matches. unfold upiId_re, upi_handle.
  rewrite Matches_Cat_inv. split.
  - intros (s1 & s2 & -> & H1 & H2).
    apply Matches_Cat_inv in H2 as (a & b & -> & Ha & Hb).
    apply Chr_inv in Ha as ->.
    apply Matches_Plus_Class in H1 as [H1 H1'].
    apply Matches_Plus_Class in Hb as [Hb Hb'].
    exists s1, b. auto.
  - intros (l & d & -> & Hl & Hd & Hl' & Hd').
    exists l, (lit "@" ++ d). repeat split.
    + now apply Matches_Plus_Class.
    + apply Matches_Cat_inv. exists (lit "@"), d. repeat split.
      * now apply Chr_inv.
      * now apply Matches_Plus_Class.
Qed.

Lemma cardNumber_re_spec (s : jsstring) :
  test cardNumber_re s = true <-> digits 16 s.
Proof.
  rewrite test_Matches. apply Matches_Repeat_Class.
Qed.

Lemma cvv_re_spec (s : jsstring) : test cvv_re s = true <-> digits 3 s.
Proof.
  rewrite test_Matches. apply Matches_Repeat_Class.
Qed.

Lemma in_range_iff (lo hi : ascii) (c : N) :
  in_range lo hi c = true <-> (N_of_ascii lo <= c <= N_of_ascii hi)%N.
Proof.
  unfold in_range. now rewrite andb_true_iff, !N.leb_le.
Qed.

Ltac ascii_codes :=
  change (N_of_ascii "0") with 48%N in *;
  change (N_of_ascii "1") with 49%N in *;
  change (N_of_ascii "2") with 50%N in *;
  change (N_of_ascii "9") with 57%N in *.

Lemma expiry_re_spec (s : jsstring) :
  test expiry_re s = true <-> expiry_MM_YY s.
Proof.
  rewrite test_Matches. unfold expiry_re, expiry_MM_YY, Range.
  rewrite Matches_Cat_inv. split.
  - intros (mm & rest & -> & Hmm & Hrest).
    apply Matches_Cat_inv in Hrest as (sl & yy & -> & Hsl & Hyy).
    apply Chr_inv in Hsl as ->.
    apply Matches_Repeat_Class in Hyy as [Hlen Hd].
    destruct yy as [|y1 [|y2 [|? ?]]]; try discriminate.
    simpl in Hd. rewrite andb_true_r in Hd.
    apply andb_true_iff in Hd as [Hy1 Hy2].
    assert (Hm : exists m1 m2, mm = [m1; m2] /\
               ((m1 = N_of_ascii "0" /\ in_range "1" "9" m2 = true) \/
                (m1 = N_of_ascii "1" /\ in_range "0" "2" m2 = true))).
    { apply Matches_Alt_inv in Hmm as [H|H];
        apply Matches_Cat_inv in H as (a & b & -> & Ha & Hb);
        apply Chr_inv in Ha as ->;
        match goal with |- context [[N_of_ascii ?x] ++ _] => set (a0 := x) end;
        apply Matches_Class_inv in Hb as (c & -> & Hc);
        exists (N_of_ascii a0), c; (split; [reflexivity | tauto]). }
    destruct Hm as (m1 & m2 & -> & Hm).
    exists m1, m2, y1, y2. split; [reflexivity |].
    unfold digit, digit_value in *.
    rewrite !in_range_iff in *. ascii_codes.
    destruct Hm as [[-> Hm]|[-> Hm]]; repeat split; lia.
  - intros (m1 & m2 & y1 & y2 & -> & Hm1 & Hm2 & Hy1 & Hy2 & Hmonth).
    exists [m1; m2], [N_of_ascii "/"; y1; y2]. repeat split.
    + unfold digit, digit_value in *.
      rewrite !in_range_iff in *. ascii_codes.
      assert (Hc : (m1 = 48 /\ 49 <= m2 <= 57)%N \/
                   (m1 = 49 /\ 48 <= m2 <= 50)%N) by lia.
      apply Matches_Alt_inv.
      destruct Hc as [[-> Hc]|[-> Hc]]; [left | right];
        apply Matches_Cat_inv.
      * exists [N_of_ascii "0"], [m2]. repeat split; [now apply Chr_inv |].
        apply Matches_Class_inv. exists m2. split; [reflexivity |].
        apply in_range_iff. ascii_codes. lia.
      * exists [N_of_ascii "1"], [m2]. repeat split; [now apply Chr_inv |].
        apply Matches_Class_inv. exists m2. split; [reflexivity |].
        apply in_range_iff. ascii_codes. lia.
    + apply Matches_Cat_inv. exists [N_of_ascii "/"], [y1; y2].
      repeat split; [now apply Chr_inv |].
      apply Matches_Repeat_Class. simpl. now rewrite Hy1, Hy2.
Qed.

Lemma not_true_false (b : bool) (P : Prop) :
  (b = true <-> P) -> ~ P -> b = false.
Proof.
  destruct b; intuition.
Qed.

Lemma cardNumber_onChange_no_space (typed : jsstring) :
  forallb (fun c => negb (space c)) (cardNumber_onChange typed) = true.
Proof.
  apply forallb_forall. intros c Hc.
  apply filter_In in Hc. tauto.
Qed.

(** C6. With UPI selected, payment validation succeeds exactly when the
    UPI id is [local-part@domain-part] with both parts non-empty and made
    of word characters, dots and hyphens; otherwise it throws a
    [ZodError] whose only issue, the one [onError] shows, is
    "Invalid UPI ID format".  "user@bank" passes; "user" and "user@"
    fail. *)
Theorem upi_validation (p : Page) (w : World) :
  paymentMethod p = upi ->
  (validate_payment p w = (Returned tt, w) <-> upi_handle (upiId p)) /\
  (~ upi_handle (upiId p) ->
   validate_payment p w
     = (Thrown (ZodError (lit "Invalid UPI ID format") []), w) /\
   onError (ZodError (lit "Invalid UPI ID format") [])
     = toast_error (lit "Invalid UPI ID format")) /\
  (upiId p = lit "user@bank" -> validate_payment p w = (Returned tt, w)) /\
  (upiId p = lit "user" \/ upiId p = lit "user@" ->
   validate_payment p w
     = (Thrown (ZodError (lit "Invalid UPI ID format") []), w)).
Proof.
  intro Hm. unfold validate_payment. rewrite Hm.
  unfold upiSchema_issues, zod_regex.
  pose proof (upiId_re_spec (upiId p)) as Hspec.
  repeat split.
  - destruct (test upiId_re (upiId p)); [tauto | discriminate].
  - intro H. apply Hspec in H. now rewrite H.
  - now rewrite (not_true_false Hspec H).
  - intros ->. reflexivity.
  - intros [-> | ->]; reflexivity.
Qed.

Lemma upi_validation_witness :
  validate_payment
    (sample_page upi (lit "user@bank") [] [] [] []) sample_world
  = (Returned tt, sample_world).
Proof.
  apply (upi_validation
           (sample_page upi (lit "user@bank") [] [] [] []) sample_world);
    reflexivity.
Defined.

(** C5. With card selected, and the card number being what the input
    keeps of the typed text (the text without its whitespace), payment
    validation succeeds exactly when the card number is 16 digits, the
    expiry is MM/YY with a month from 01 to 12, and the CVV is 3 digits.
    Otherwise the message shown is that of the first field at fault, in
    the order card number, expiry, CVV. *)
Theorem card_validation (p : Page) (w : World) (typed : jsstring) :
  paymentMethod p = card ->
  cardNumber p = cardNumber_onChange typed ->
  forallb (fun c => negb (space c)) (cardNumber p) = true /\
  (validate_payment p w = (Returned tt, w) <->
   digits 16 (cardNumber_onChange typed) /\
   expiry_MM_YY (expiry p) /\ digits 3 (cvv p)) /\
  (~ digits 16 (cardNumber_onChange typed) ->
   exists rest,
     validate_payment p w
       = (Thrown (ZodError (lit "Card number must be 16 digits") rest), w) /\
     onError (ZodError (lit "Card number must be 16 digits") rest)
       = toast_error (lit "Card number must be 16 digits")) /\
  (digits 16 (cardNumber_onChange typed) -> ~ expiry_MM_YY (expiry p) ->
   exists rest,
     validate_payment p w
       = (Thrown (ZodError (lit "Invalid expiry format (MM/YY)") rest), w) /\
     onError (ZodError (lit "Invalid expiry format (MM/YY)") rest)
       = toast_error (lit "Invalid expiry format (MM/YY)")) /\
  (digits 16 (cardNumber_onChange typed) -> expiry_MM_YY (expiry p) ->
   ~ digits 3 (cvv p) ->
   validate_payment p w
     = (Thrown (ZodError (lit "CVV must be 3 digits") []), w) /\
   onError (ZodError (lit "CVV must be 3 digits") [])
     = toast_error (lit "CVV must be 3 digits")) /\
  (typed = lit "1234567812345678" -> expiry p = lit "12/25" ->
   cvv p = lit "123" -> validate_payment p w = (Returned tt, w)) /\
  (typed = lit "123456781234567" ->
   exists rest,
     validate_payment p w
       = (Thrown (ZodError (lit "Card number must be 16 digits") rest), w)) /\
  (typed = lit "1234567812345678" -> expiry p = lit "13/25" ->
   exists rest,
     validate_payment p w
       = (Thrown (ZodError (lit "Invalid expiry format (MM/YY)") rest), w)).
Proof.
  intros Hm Hn. split.
  { rewrite Hn. apply cardNumber_onChange_no_space. }
  rewrite <- Hn. unfold validate_payment. rewrite Hm.
  unfold cardSchema_issues, zod_regex.
  rewrite <- cardNumber_re_spec, <- expiry_re_spec, <- cvv_re_spec.
  assert (E16 : typed = lit "1234567812345678" ->
                test cardNumber_re (cardNumber p) = true).
  { intros ->. rewrite Hn. reflexivity. }
  assert (E15 : typed = lit "123456781234567" ->
                test cardNumber_re (cardNumber p) = false).
  { intros ->. rewrite Hn. reflexivity. }
  destruct (test cardNumber_re (cardNumber p)) eqn:E1;
    destruct (test expiry_re (expiry p)) eqn:E2;
    destruct (test cvv_re (cvv p)) eqn:E3; simpl;
    repeat match goal with
      | |- _ /\ _ => split
      | |- _ <-> _ => split
      | |- _ -> _ => intro
      | H : _ /\ _ |- _ => destruct H
      | H : ~ true = true |- _ => exfalso; apply H; reflexivity
      | H : ?t = _ -> _ = _, H' : ?t = _ |- _ => specialize (H H')
      | H : expiry p = _, E : test expiry_re (expiry p) = _ |- _ =>
          rewrite H in E; vm_compute in E
      | H : cvv p = _, E : test cvv_re (cvv p) = _ |- _ =>
          rewrite H in E; vm_compute in E
      | _ => discriminate
      | |- exists _, _ => eexists
      | _ => reflexivity
      end.
Qed.

Lemma card_validation_witness :
  cardNumber_onChange (lit "1234 5678 1234 5678") = lit "1234567812345678" /\
  validate_payment
    (sample_page card [] (lit "1234567812345678") (lit "12/25") (lit "123") [])
    sample_world
  = (Returned tt, sample_world).
Proof.
  split; [reflexivity |].
  apply (proj1 (proj2
           (card_validation
              (sample_page card [] (lit "1234567812345678") (lit "12/25")
                           (lit "123") [])
              sample_world (lit "1234 5678 1234 5678") eq_refl eq_refl))).
  repeat split.
  apply expiry_re_spec. reflexivity.
Defined.

Lemma banks_nonempty_names (b : jsstring) : In b banks -> str_truthy b = true.
Proof.
  unfold banks. simpl.
  intros H. repeat (destruct H as [<- | H]; [reflexivity |]). contradiction.
Qed.

(** C7. With net banking selected, and the bank being what the bank
    selector can hold (nothing yet, or one of [banks]), payment
    validation passes exactly when a bank of the list is selected, and
    throws "Please select a bank" when none is.  "HDFC Bank" passes. *)
Theorem netbanking_validation (p : Page) (w : World) :
  paymentMethod p = netbanking ->
  selectable (selectedBank p) ->
  (validate_payment p w = (Returned tt, w) <-> In (selectedBank p) banks) /\
  (selectedBank p = lit "" ->
   validate_payment p w = (Thrown (Error (lit "Please select a bank")), w) /\
   onError (Error (lit "Please select a bank"))
     = toast_error (lit "Please select a bank")) /\
  (selectedBank p = lit "HDFC Bank" ->
   validate_payment p w = (Returned tt, w)).
Proof.
  intros Hm Hs. unfold validate_payment. rewrite Hm.
  repeat split.
  - intro H. inversion Hs as [E | b Hb E]; [| assumption].
    rewrite <- E in H. discriminate.
  - intro H. now rewrite (banks_nonempty_names H).
  - now rewrite H.
  - intros ->. reflexivity.
Qed.

Lemma netbanking_validation_witness :
  selectable (lit "HDFC Bank") /\
  validate_payment (sample_page netbanking [] [] [] [] (lit "HDFC Bank"))
                   sample_world
  = (Returned tt, sample_world).
Proof.
  assert (Hs : selectable (lit "HDFC Bank")).
  { apply selectable_item. simpl. right. left. reflexivity. }
  split; [exact Hs |].
  exact (proj2 (proj2
           (netbanking_validation
              (sample_page netbanking [] [] [] [] (lit "HDFC Bank"))
              sample_world eq_refl Hs)) eq_refl).
Defined.

(* ================================================================== *)
(** * The mutation, step by step *)

Lemma length_eqb_0 {A} (l : list A) :
  l <> [] -> (List.length l =? 0)%nat = false.
Proof.
  destruct l; [congruence | reflexivity].
Qed.

Lemma str_truthy_true (s : jsstring) : s <> [] -> str_truthy s = true.
Proof.
  destruct s; [congruence | reflexivity].
Qed.

(** Once the checks have passed, the outcome is decided by the answers
    of the backend and by the reconciled lines. *)
Lemma mutationFn_validated f p u w :
  validated p u w ->
  let order := order_fields p u (next_order_id (db w)) in
  let d1 := snd (insert_order (order_fields p u) (db w)) in
  let lines := orderItems_of (next_order_id (db w)) (catalog w)
                             (itemsForPayment p) in
  let d3 := snd (insert_order_items lines d1) in
  let c1 := calls w ++ [InsertOrder] in
  let c2 := c1 ++ [SelectProductIds] in
  let c3 := c2 ++ [InsertOrderItems] in
  let c4 := c3 ++ [DeleteCartItems] in
  mutationFn f p w =
    match orderError f with
    | Some e => (Thrown (Error e), mkWorld (db w) c1)
    | None =>
      match prodErr f with
      | Some e => (Thrown (Error e), mkWorld d1 c2)
      | None =>
        match lines with
        | [] => (Thrown (Error (lit "No valid products found for this order")),
                 mkWorld d1 c2)
        | _ :: _ =>
          match itemsError f with
          | Some e => (Thrown (Error e), mkWorld d1 c3)
          | None =>
            if isBuyNow p then (Returned order, mkWorld d3 c3)
            else match clearError f with
                 | Some e => (Thrown (Error e), mkWorld d3 c4)
                 | None =>
                     (Returned order,
                      mkWorld (snd (delete_cart_items (uid u) d3)) c4)
                 end
          end
        end
      end
    end.
Proof.
  intros (Hu & Hi & Ha & Hp & Hv). cbv zeta.
  unfold mutationFn. rewrite Hu, (length_eqb_0 Hi).
  rewrite (str_truthy_true Ha), (str_truthy_true Hp). change (negb true) with false. cbv iota.
  unfold bind at 1. rewrite Hv.
  unfold bind, request, throw_if_error, ret, throw, catalog. simpl.
  destruct (orderError f); [reflexivity |].
  destruct (prodErr f); [reflexivity |].
  destruct (orderItems_of _ _ _) eqn:El; [reflexivity |]. simpl.
  destruct (itemsError f); [reflexivity |].
  destruct (isBuyNow p); simpl; [reflexivity |].
  destruct (clearError f); reflexivity.
Qed.

Lemma validate_payment_cases p w :
  validate_payment p w = (Returned tt, w) \/
  exists e, validate_payment p w = (Thrown e, w).
Proof.
  unfold validate_payment, zod_parse, ret, throw.
  destruct (paymentMethod p).
  - destruct (upiSchema_issues _); eauto.
  - destruct (cardSchema_issues _ _ _); eauto.
  - destruct (negb _); eauto.
  - auto.
Qed.

(** Where the form is rendered there is a user and something to pay. *)
Lemma render_form p :
  render p = form -> exists u, user p = Some u /\ itemsForPayment p <> [].
Proof.
  unfold render, itemsForPayment.
  destruct (user p) as [u|]; [| discriminate].
  intro H. exists u. split; [reflexivity |].
  destruct (isBuyNow p); simpl in *; [discriminate |].
  destruct (cartItems p) as [[|i l]|]; simpl in H; discriminate.
Qed.

Lemma mutationFn_no_address f p u w :
  user p = Some u -> itemsForPayment p <> [] -> address p = [] ->
  mutationFn f p w = (Thrown (Error (lit "Please enter your address")), w).
Proof.
  intros Hu Hi Ha. unfold mutationFn.
  now rewrite Hu, (length_eqb_0 Hi), Ha.
Qed.

Lemma mutationFn_no_phone f p u w :
  user p = Some u -> itemsForPayment p <> [] ->
  address p <> [] -> phone p = [] ->
  mutationFn f p w
  = (Thrown (Error (lit "Please enter your phone number")), w).
Proof.
  intros Hu Hi Ha Hp. unfold mutationFn.
  now rewrite Hu, (length_eqb_0 Hi), (str_truthy_true Ha), Hp.
Qed.

Lemma mutationFn_invalid_payment f p u w e :
  user p = Some u -> itemsForPayment p <> [] ->
  address p <> [] -> phone p <> [] ->
  validate_payment p w = (Thrown e, w) ->
  mutationFn f p w = (Thrown e, w).
Proof.
  intros Hu Hi Ha Hp Hv. unfold mutationFn.
  rewrite Hu, (length_eqb_0 Hi), (str_truthy_true Ha), (str_truthy_true Hp).
  change (negb true) with false. cbv iota.
  unfold bind at 1. now rewrite Hv.
Qed.

(** C4. On the rendered form, pressing [Pay Now] with an empty address
    shows "Please enter your address"; with an address and an empty phone,
    "Please enter your phone number"; with both, the payment-method
    check runs and its error, if any, is shown.  In all three cases the
    backend is left as it was and no call is made: whenever an attempt
    makes a call or writes anything, all three checks have passed. *)
Theorem validation_before_persistence (f : Faults) (p : Page) (w : World) :
  render p = form ->
  (address p = [] ->
   handlePayment f p w
   = (toast_error (lit "Please enter your address"), w)) /\
  (address p <> [] -> phone p = [] ->
   handlePayment f p w
   = (toast_error (lit "Please enter your phone number"), w)) /\
  (address p <> [] -> phone p <> [] ->
   forall e, validate_payment p w = (Thrown e, w) ->
             handlePayment f p w = (onError e, w)) /\
  (snd (mutationFn f p w) <> w ->
   address p <> [] /\ phone p <> [] /\
   validate_payment p w = (Returned tt, w)).
Proof.
  intro Hr. destruct (render_form p Hr) as (u & Hu & Hi).
  assert (Hdec : forall s : jsstring, s = [] \/ s <> []).
  { intros [|c s]; [left | right]; congruence. }
  unfold handlePayment. split; [| split; [| split]].
  - intro Ha. now rewrite (@mutationFn_no_address f p u w Hu Hi Ha).
  - intros Ha Hp. now rewrite (@mutationFn_no_phone f p u w Hu Hi Ha Hp).
  - intros Ha Hp e Hv.
    now rewrite (@mutationFn_invalid_payment f p u w e Hu Hi Ha Hp Hv).
  - intro Hw.
    destruct (Hdec (address p)) as [Ha | Ha].
    { exfalso. apply Hw.
      now rewrite (@mutationFn_no_address f p u w Hu Hi Ha). }
    destruct (Hdec (phone p)) as [Hp | Hp].
    { exfalso. apply Hw.
      now rewrite (@mutationFn_no_phone f p u w Hu Hi Ha Hp). }
    destruct (validate_payment_cases p w) as [Hv | [e Hv]]; [auto |].
    exfalso. apply Hw.
    now rewrite (@mutationFn_invalid_payment f p u w e Hu Hi Ha Hp Hv).
Qed.

Lemma validation_before_persistence_witness :
  handlePayment no_faults missing_address_page sample_world
  = (toast_error (lit "Please enter your address"), sample_world).
Proof.
  apply (validation_before_persistence
           no_faults missing_address_page sample_world);
    reflexivity.
Defined.

(** The calls of any attempt are an initial part of the fixed sequence. *)
Lemma calls_prefix f p u w :
  validated p u w ->
  exists n, calls (snd (mutationFn f p w)) = calls w ++ firstn n call_sequence.
Proof.
  intro Hv. rewrite (mutationFn_validated f Hv).
  destruct (orderError f); [now exists 1%nat |].
  destruct (prodErr f); [exists 2%nat; simpl; now rewrite <- app_assoc |].
  destruct (orderItems_of _ _ _);
    [exists 2%nat; simpl; now rewrite <- app_assoc |].
  destruct (itemsError f);
    [exists 3%nat; simpl; now rewrite <- !app_assoc |].
  destruct (isBuyNow p);
    [exists 3%nat; simpl; now rewrite <- !app_assoc |].
  destruct (clearError f); exists 4%nat; simpl; now rewrite <- !app_assoc.
Qed.

(** C9. After the checks, the backend calls run one after the other,
    each only if the one before succeeded.  If the header insert fails,
    its error is thrown and nothing else is called or written.  If the
    batch insert of the lines fails, its error is thrown, the header
    stays, no line is written and the cart is not touched.  The cart
    delete is called only in the cart flow and only after the lines are
    written; if it fails, its error is thrown while header and lines stay
    and the cart keeps its rows.  A thrown backend error is shown with its
    message. *)
Theorem persistence_steps (f : Faults) (p : Page) (u : User) (w : World) :
  validated p u w ->
  let order := order_fields p u (next_order_id (db w)) in
  let lines := orderItems_of (next_order_id (db w)) (catalog w)
                             (itemsForPayment p) in
  let w' := snd (mutationFn f p w) in
  (exists n, calls w' = calls w ++ firstn n call_sequence) /\
  (forall e, orderError f = Some e ->
     mutationFn f p w
     = (Thrown (Error e), mkWorld (db w) (calls w ++ [InsertOrder]))) /\
  (forall e, orderError f = None -> prodErr f = None -> lines <> [] ->
     itemsError f = Some e ->
     fst (mutationFn f p w) = Thrown (Error e) /\
     orders (db w') = orders (db w) ++ [order] /\
     order_items (db w') = order_items (db w) /\
     cart_items (db w') = cart_items (db w) /\
     calls w' = calls w ++ [InsertOrder; SelectProductIds; InsertOrderItems]) /\
  (orderError f = None -> prodErr f = None -> lines <> [] ->
     itemsError f = None -> isBuyNow p = true ->
     fst (mutationFn f p w) = Returned order /\
     orders (db w') = orders (db w) ++ [order] /\
     order_items (db w') = order_items (db w) ++ lines /\
     cart_items (db w') = cart_items (db w) /\
     calls w' = calls w ++ [InsertOrder; SelectProductIds; InsertOrderItems]) /\
  (forall e, orderError f = None -> prodErr f = None -> lines <> [] ->
     itemsError f = None -> isBuyNow p = false -> clearError f = Some e ->
     fst (mutationFn f p w) = Thrown (Error e) /\
     orders (db w') = orders (db w) ++ [order] /\
     order_items (db w') = order_items (db w) ++ lines /\
     cart_items (db w') = cart_items (db w) /\
     calls w' = calls w ++ call_sequence) /\
  (orderError f = None -> prodErr f = None -> lines <> [] ->
     itemsError f = None -> isBuyNow p = false -> clearError f = None ->
     fst (mutationFn f p w) = Returned order /\
     orders (db w') = orders (db w) ++ [order] /\
     order_items (db w') = order_items (db w) ++ lines /\
     cart_items (db w')
     = filter (fun r => negb (jsstring_eqb (CartRow.user_id r) (uid u)))
              (cart_items (db w)) /\
     calls w' = calls w ++ call_sequence) /\
  (forall e, onError (Error e)
             = toast_error (if str_truthy e then e
                            else lit "Failed to place order")).
Proof.
  intro Hv. cbv zeta. split; [exact (calls_prefix f Hv) |].
  rewrite (mutationFn_validated f Hv).
  split; [intros e ->; reflexivity |].
  unfold call_sequence.
  destruct (orderItems_of _ _ _) as [|l ls] eqn:El;
    repeat match goal with
      | |- _ /\ _ => split
      | |- forall _, _ => intro
      | H : ?x = _ |- context [match ?x with _ => _ end] => rewrite H
      | H : ?x = _ |- context [if ?x then _ else _] => rewrite H
      | _ => congruence
      | _ => reflexivity
      | _ => simpl; rewrite <- !app_assoc; reflexivity
      end.
Qed.

Lemma sample_validated : validated cod_page sample_user sample_world.
Proof.
  unfold validated. repeat split; discriminate.
Qed.

Lemma persistence_steps_witness :
  validated cod_page sample_user sample_world /\
  fst (mutationFn lines_refused cod_page sample_world)
  = Thrown (Error (lit "insert failed")) /\
  orders (db (snd (mutationFn lines_refused cod_page sample_world)))
  = [order_fields cod_page sample_user 1] /\
  order_items (db (snd (mutationFn lines_refused cod_page sample_world)))
  = [].
Proof.
  split; [exact sample_validated |].
  destruct (@persistence_steps lines_refused cod_page sample_user
              sample_world sample_validated) as (_ & _ & H & _).
  destruct (H (lit "insert failed")) as (H1 & H2 & H3 & _);
    try reflexivity; try discriminate.
  repeat split; assumption.
Defined.

(* ================================================================== *)
(** * Reconciliation *)

Lemma orderItems_of_filter (oid : N) (valid : list jsid) (items : list Item.t) :
  orderItems_of oid valid items
  = map (line_of oid)
        (filter (fun item => includes valid (resolved_id item)) items).
Proof.
  unfold orderItems_of. induction items as [|item items IH]; [reflexivity |].
  simpl. unfold order_item_of at 1. fold (resolved_id item).
  destruct (includes valid (resolved_id item)); simpl; now rewrite IH.
Qed.

Lemma orderItems_of_discarded (oid : N) (valid : list jsid) (items : list Item.t) :
  Forall (discarded valid) items -> orderItems_of oid valid items = [].
Proof.
  rewrite orderItems_of_filter. induction 1 as [|item items H _ IH]; simpl.
  - reflexivity.
  - unfold discarded in H. rewrite H. exact IH.
Qed.

Lemma orderItems_of_nil_iff oid valid items :
  orderItems_of oid valid items = [] <-> Forall (discarded valid) items.
Proof.
  split; [| apply orderItems_of_discarded].
  rewrite orderItems_of_filter. unfold discarded.
  induction items as [|item items IH]; simpl; [constructor |].
  destruct (includes valid (resolved_id item)) eqn:E; simpl.
  - discriminate.
  - intro H. constructor; auto.
Qed.

(** C1, as the code has it.  When the checks pass, the header insert and
    the catalogue read succeed and every candidate is discarded, the
    attempt fails with "No valid products found for this order", no line
    is written and the cart is not touched, and the header inserted
    before the reconciliation stays in [orders], without lines. *)
Theorem no_valid_products (f : Faults) (p : Page) (u : User) (w : World) :
  validated p u w ->
  Forall (discarded (catalog w)) (itemsForPayment p) ->
  orderError f = None -> prodErr f = None ->
  let w' := snd (mutationFn f p w) in
  handlePayment f p w
  = (toast_error (lit "No valid products found for this order"), w') /\
  fst (mutationFn f p w)
  = Thrown (Error (lit "No valid products found for this order")) /\
  orders (db w') = orders (db w) ++ [order_fields p u (next_order_id (db w))] /\
  order_items (db w') = order_items (db w) /\
  cart_items (db w') = cart_items (db w) /\
  calls w' = calls w ++ [InsertOrder; SelectProductIds].
Proof.
  intros Hv Hd Ho Hp. cbv zeta. unfold handlePayment.
  rewrite (mutationFn_validated f Hv), Ho, Hp.
  rewrite (orderItems_of_discarded _ Hd). simpl.
  rewrite <- app_assoc. repeat split.
Qed.

Lemma unknown_validated :
  validated unknown_products_page sample_user sample_world.
Proof.
  unfold validated. repeat split; discriminate.
Qed.

Lemma no_valid_products_witness :
  validated unknown_products_page sample_user sample_world /\
  Forall (discarded (catalog sample_world))
         (itemsForPayment unknown_products_page) /\
  fst (mutationFn no_faults unknown_products_page sample_world)
  = Thrown (Error (lit "No valid products found for this order")) /\
  order_items
    (db (snd (mutationFn no_faults unknown_products_page sample_world)))
  = [].
Proof.
  assert (Hd : Forall (discarded (catalog sample_world))
                      (itemsForPayment unknown_products_page)).
  { repeat constructor. }
  split; [exact unknown_validated |]. split; [exact Hd |].
  destruct (@no_valid_products no_faults unknown_products_page sample_user
              sample_world unknown_validated Hd eq_refl eq_refl)
    as (_ & H1 & _ & H2 & _).
  split; assumption.
Defined.

(** C1, as the specification has it, fails: an attempt whose candidates
    are all discarded leaves an order without lines behind. *)
Lemma no_valid_products_leaves_header :
  Forall (discarded (catalog sample_world))
         (itemsForPayment unknown_products_page) /\
  fst (mutationFn no_faults unknown_products_page sample_world)
  = Thrown (Error (lit "No valid products found for this order")) /\
  orders (db sample_world) = [] /\
  orders (db (snd (mutationFn no_faults unknown_products_page sample_world)))
  = [order_fields unknown_products_page sample_user 1] /\
  order_items
    (db (snd (mutationFn no_faults unknown_products_page sample_world)))
  = [].
Proof.
  split; [repeat constructor |]. repeat split.
Qed.

Lemma jsstring_eqb_eq (a b : jsstring) : jsstring_eqb a b = true <-> a = b.
Proof.
  unfold jsstring_eqb. destruct (jsstring_eq_dec a b); split; congruence.
Qed.

Lemma id_eqb_eq (a b : jsid) : id_eqb a b = true <-> a = b.
Proof.
  destruct a, b; simpl; split; intro H;
    try discriminate; try reflexivity.
  - apply Z.eqb_eq in H. now subst.
  - injection H as ->. apply Z.eqb_refl.
  - apply jsstring_eqb_eq in H. now subst.
  - injection H as ->. now apply jsstring_eqb_eq.
Qed.

Lemma includes_In (l : list jsid) (v : jsid) : includes l v = true <-> In v l.
Proof.
  unfold includes. rewrite existsb_exists. split.
  - intros (x & Hx & E). apply id_eqb_eq in E. now subst.
  - intro H. exists v. split; [assumption | now apply id_eqb_eq].
Qed.

Lemma orderItems_of_app oid valid l1 l2 :
  orderItems_of oid valid (l1 ++ l2)
  = orderItems_of oid valid l1 ++ orderItems_of oid valid l2.
Proof.
  now rewrite !orderItems_of_filter, filter_app, map_app.
Qed.

Lemma resolved_id_in_words (item : Item.t) :
  resolved_id item = reference_or_identity item.
Proof.
  unfold resolved_id, id_or, reference_or_identity.
  destruct (Item.product_id item) as [| |z|s]; simpl; try reflexivity.
  - destruct z; reflexivity.
  - destruct s; reflexivity.
Qed.

Lemma num_or_lit_in_words (v : jsnum) (d : double) :
  num_or_lit v d = match nonzero_number v with Some x => x | None => d end.
Proof.
  destruct v as [| |x]; try reflexivity. destruct x; reflexivity.
Qed.

Lemma num_truthy_in_words (v : jsnum) :
  num_truthy v = match nonzero_number v with Some _ => true | None => false end.
Proof.
  destruct v as [| |x]; try reflexivity. destruct x; reflexivity.
Qed.

Lemma unit_price_in_words (item : Item.t) :
  unit_price item = own_or_joined_price item.
Proof.
  unfold unit_price, own_or_joined_price, num_or, products_price.
  rewrite num_truthy_in_words.
  destruct (nonzero_number (Item.price item)) as [x|] eqn:E.
  - rewrite num_or_lit_in_words, E. reflexivity.
  - destruct (Item.products item) as [prod|].
    + apply num_or_lit_in_words.
    + reflexivity.
Qed.

Lemma line_of_in_words (oid : N) (item : Item.t) :
  line_of oid item = line_in_words oid item.
Proof.
  unfold line_of, line_in_words.
  now rewrite resolved_id_in_words, unit_price_in_words.
Qed.

Lemma orderItems_of_in_words oid valid items :
  orderItems_of oid valid items
  = map (line_in_words oid)
        (filter (fun item => includes valid (reference_or_identity item))
                items).
Proof.
  rewrite orderItems_of_filter.
  induction items as [|item items IH]; [reflexivity |]. simpl.
  rewrite resolved_id_in_words.
  destruct (includes valid (reference_or_identity item)); simpl;
    now rewrite ?line_of_in_words, IH.
Qed.

(** C3, as the code has it.  The lines written are the lines of exactly
    the candidates whose resolved identity is in the catalogue snapshot,
    in their order, and whether a candidate is kept does not depend on
    the candidates around it.  The resolved identity is the product
    reference unless that is missing, [null], 0 or the empty string, and
    then the bare identity; the price of a line is the candidate's own
    price when that is a non-zero number, else the joined product's price
    when that is a non-zero number, else zero. *)
Theorem reconciliation (oid : N) (valid : list jsid) :
  (forall items line,
     In line (orderItems_of oid valid items) <->
     exists item, In item items /\ In (reference_or_identity item) valid /\
                  line = line_in_words oid item) /\
  (forall before item after,
     orderItems_of oid valid (before ++ item :: after)
     = orderItems_of oid valid before
       ++ (if includes valid (reference_or_identity item)
           then [line_in_words oid item] else [])
       ++ orderItems_of oid valid after) /\
  (forall v, includes valid v = true <-> In v valid) /\
  (forall f p u w,
     validated p u w ->
     orderError f = None -> prodErr f = None -> itemsError f = None ->
     Exists (fun item => In (reference_or_identity item) (catalog w))
            (itemsForPayment p) ->
     order_items (db (snd (mutationFn f p w)))
     = order_items (db w)
       ++ map (line_in_words (next_order_id (db w)))
              (filter (fun item =>
                         includes (catalog w) (reference_or_identity item))
                      (itemsForPayment p))).
Proof.
  split; [| split; [| split]].
  - intros items line. rewrite orderItems_of_in_words, in_map_iff. split.
    + intros (item & <- & H). apply filter_In in H as [H1 H2].
      apply includes_In in H2. eauto.
    + intros (item & H1 & H2 & ->). exists item. split; [reflexivity |].
      apply filter_In. split; [assumption | now apply includes_In].
  - intros before item after.
    rewrite orderItems_of_app.
    change (item :: after) with ([item] ++ after).
    rewrite orderItems_of_app. f_equal. f_equal.
    rewrite orderItems_of_in_words. simpl.
    now destruct (includes valid (reference_or_identity item)).
  - intro v. apply includes_In.
  - intros f p u w Hv Ho Hp Hi Hex.
    rewrite (mutationFn_validated f Hv), Ho, Hp, Hi.
    rewrite <- orderItems_of_in_words.
    destruct (orderItems_of _ _ _) as [|l ls] eqn:El.
    + exfalso. apply orderItems_of_nil_iff in El.
      apply Exists_exists in Hex as (item & Hin & Hc).
      rewrite Forall_forall in El. specialize (El item Hin).
      unfold discarded in El. rewrite resolved_id_in_words in El.
      apply includes_In in Hc. congruence.
    + destruct (isBuyNow p); [reflexivity |].
      destruct (clearError f); reflexivity.
Qed.

(** C3, as the specification has it, fails where a field is there but
    falsy: an own price of 0 gives way to the joined product's price, and
    a product reference of 0 to the bare identity. *)
Lemma reconciliation_zero_is_present :
  claimed_price zero_priced = of_Z 0 /\
  In (claimed_identity zero_priced) [INum 1] /\
  map OrderItem.price (orderItems_of 1 [INum 1] [zero_priced]) = [of_Z 50] /\
  In (claimed_identity zero_referenced) [INum 0] /\
  orderItems_of 1 [INum 0] [zero_referenced] = [].
Proof.
  repeat split; simpl; auto.
Qed.

(* ================================================================== *)
(** * The total *)

Lemma fold_left_add_map {A} (g : A -> double) (l : list A) : forall acc,
  fold_left js_add (map g l) acc
  = fold_left (fun sum a => js_add sum (g a)) l acc.
Proof.
  induction l as [|a l IH]; intro acc; simpl; [reflexivity | apply IH].
Qed.

Lemma quantity_in_words (item : Item.t) :
  num_or_lit (Item.quantity item) (of_Z 1) = quantity_or_one item.
Proof.
  apply num_or_lit_in_words.
Qed.

Lemma fold_total_in_words (items : list Item.t) : forall acc,
  fold_left
    (fun sum item =>
       js_add sum
         (js_mul (unit_price item)
                 (num_or_lit (Item.quantity item) (of_Z 1))))
    items acc
  = fold_left
      (fun sum item =>
         js_add sum (js_mul (own_or_joined_price item) (quantity_or_one item)))
      items acc.
Proof.
  induction items as [|item items IH]; intro acc; simpl; [reflexivity |].
  now rewrite unit_price_in_words, quantity_in_words, IH.
Qed.

Lemma total_of_in_words (items : list Item.t) :
  total_of items
  = js_sum (map (fun item =>
                   js_mul (own_or_joined_price item) (quantity_or_one item))
                items).
Proof.
  unfold total_of, js_sum.
  now rewrite fold_total_in_words, fold_left_add_map.
Qed.

Lemma total_of_split (before : list Item.t) (item : Item.t)
    (after : list Item.t) :
  total_of (before ++ item :: after)
  = fold_left
      (fun sum i =>
         js_add sum (js_mul (own_or_joined_price i) (quantity_or_one i)))
      after
      (js_add (total_of before)
              (js_mul (own_or_joined_price item) (quantity_or_one item))).
Proof.
  unfold total_of. rewrite !fold_total_in_words, fold_left_app.
  reflexivity.
Qed.

Lemma price_times_quantity_from_fold (items : list Item.t) :
  Forall (fun item => nonzero_number (Item.quantity item) <> None) items ->
  forall acc,
    price_times_quantity_from acc items
    = Some (fold_left
              (fun sum item =>
                 js_add sum
                   (js_mul (own_or_joined_price item) (quantity_or_one item)))
              items acc).
Proof.
  induction 1 as [|item items H _ IH]; intro acc; [reflexivity |].
  assert (E : Item.quantity item = Num (quantity_or_one item)).
  { unfold quantity_or_one.
    destruct (Item.quantity item) as [| |q]; simpl in *; try congruence.
    destruct q; simpl in *; congruence. }
  simpl. rewrite E at 1. apply IH.
Qed.

Lemma order_recorded f p u w :
  validated p u w -> orderError f = None ->
  orders (db (snd (mutationFn f p w)))
  = orders (db w) ++ [order_fields p u (next_order_id (db w))].
Proof.
  intros Hv Ho. rewrite (mutationFn_validated f Hv), Ho.
  destruct (prodErr f); [reflexivity |].
  destruct (orderItems_of _ _ _); [reflexivity |].
  destruct (itemsError f); [reflexivity |].
  destruct (isBuyNow p); [reflexivity |].
  destruct (clearError f); reflexivity.
Qed.

(** C2, as the code has it.  The total recorded on the order is the sum
    over the candidates, before reconciliation and accumulated from 0 in
    list order in binary64 arithmetic, of unit price times quantity,
    where the unit price is the candidate's own or else the joined
    product's or else 0, and a quantity that is missing, [null], zero or
    NaN counts as 1; the catalogue plays no part in it.  Where every
    quantity is a non-zero number this is the sum of unit price times
    quantity, and for [{price: 100, quantity: 2}] and
    [{price: 50, quantity: 1}] it is 250. *)
Theorem order_total (f : Faults) (p : Page) (u : User) (w : World) :
  validated p u w ->
  orderError f = None ->
  (exists o,
     orders (db (snd (mutationFn f p w))) = orders (db w) ++ [o] /\
     Order.total_amount o = total p) /\
  total p
  = js_sum (map (fun item =>
                   js_mul (own_or_joined_price item) (quantity_or_one item))
                (itemsForPayment p)) /\
  (Forall (fun item => nonzero_number (Item.quantity item) <> None)
          (itemsForPayment p) ->
   price_times_quantity (itemsForPayment p) = Some (total p)) /\
  (itemsForPayment p = two_candidates -> total p = of_Z 250).
Proof.
  intros Hv Ho. split; [| split; [| split]].
  - exists (order_fields p u (next_order_id (db w))).
    split; [| reflexivity]. now apply order_recorded.
  - apply total_of_in_words.
  - intro H. unfold price_times_quantity, total, total_of.
    rewrite (price_times_quantity_from_fold H). f_equal. symmetry.
    apply fold_total_in_words.
  - unfold total. intros ->. reflexivity.
Qed.

Lemma order_total_witness :
  validated cod_page sample_user sample_world /\
  map Order.total_amount
      (orders (db (snd (mutationFn no_faults cod_page sample_world))))
  = [of_Z 250] /\
  price_times_quantity (itemsForPayment cod_page) = Some (of_Z 250).
Proof.
  split; [exact sample_validated |].
  destruct (@order_total no_faults cod_page sample_user sample_world
              sample_validated eq_refl) as ((o & Ho & Ht) & _ & Hq & _).
  split.
  - rewrite Ho. simpl. rewrite Ht. reflexivity.
  - apply Hq. repeat constructor; discriminate.
Defined.

(** C2, as the specification has it, fails: a candidate of price 100 and
    quantity 0 adds 100 to the recorded total, not 100 times 0. *)
Lemma order_total_zero_quantity :
  map Item.quantity (itemsForPayment zero_quantity_page) = [num 0] /\
  map own_or_joined_price (itemsForPayment zero_quantity_page)
  = [of_Z 100] /\
  price_times_quantity (itemsForPayment zero_quantity_page)
  = Some (of_Z 0) /\
  map Order.total_amount
      (orders (db (snd (mutationFn no_faults zero_quantity_page sample_world))))
  = [of_Z 100].
Proof.
  repeat split.
Qed.

(** The total is a binary64 sum: 2^53, 1 and 1 add up to 2^53. *)
Example total_rounds :
  total_of large_candidates = of_Z (2 ^ 53) /\
  of_Z (2 ^ 53) <> of_Z (2 ^ 53 + 2).
Proof.
  split; [reflexivity | discriminate].
Qed.

Lemma kept_lines_nonempty oid valid before item after :
  In (reference_or_identity item) valid ->
  orderItems_of oid valid (before ++ item :: after) <> [].
Proof.
  intros Hin H. apply orderItems_of_nil_iff in H.
  rewrite Forall_forall in H.
  specialize (H item (in_elt item before after)).
  unfold discarded in H. rewrite resolved_id_in_words in H.
  apply includes_In in Hin. congruence.
Qed.

(** C10. In the cart flow, a candidate whose quantity is missing,
    [null] or zero (or NaN) enters the recorded total as its unit price
    times 1, while the line the attempt writes for it into [order_items]
    keeps the quantity as it is.  So the recorded total and the value of
    the written lines can differ although every candidate is kept: the
    cart row of price 100 and quantity 0 leaves an order of total 100
    with one line worth 0. *)
Theorem cart_quantity_default (f : Faults) (p : Page) (u : User) (w : World)
    (before after : list Item.t) (item : Item.t) :
  validated p u w ->
  isBuyNow p = false ->
  itemsForPayment p = before ++ item :: after ->
  no_quantity (Item.quantity item) ->
  In (reference_or_identity item) (catalog w) ->
  orderError f = None -> prodErr f = None -> itemsError f = None ->
  (exists o,
     orders (db (snd (mutationFn f p w))) = orders (db w) ++ [o] /\
     Order.total_amount o
     = fold_left
         (fun sum i =>
            js_add sum (js_mul (own_or_joined_price i) (quantity_or_one i)))
         after
         (js_add (total_of before)
                 (js_mul (own_or_joined_price item) (of_Z 1)))) /\
  order_items (db (snd (mutationFn f p w)))
  = order_items (db w)
    ++ orderItems_of (next_order_id (db w)) (catalog w) before
    ++ [OrderItem.mk (next_order_id (db w)) (reference_or_identity item)
                     (Item.quantity item) (own_or_joined_price item)]
    ++ orderItems_of (next_order_id (db w)) (catalog w) after /\
  (Forall (fun i => In (reference_or_identity i) (catalog sample_world))
          (itemsForPayment zero_quantity_page) /\
   order_items
     (db (snd (mutationFn no_faults zero_quantity_page sample_world)))
   = [OrderItem.mk 1 (INum 1) (num 0) (of_Z 100)] /\
   map Order.total_amount
       (orders (db (snd (mutationFn no_faults zero_quantity_page sample_world))))
   = [of_Z 100] /\
   lines_value
     (order_items
        (db (snd (mutationFn no_faults zero_quantity_page sample_world))))
   = of_Z 0 /\
   of_Z 100 <> of_Z 0).
Proof.
  intros Hv Hb Hitems Hq Hin Ho Hp Hi. split; [| split].
  - exists (order_fields p u (next_order_id (db w))).
    split; [now apply order_recorded |]. simpl.
    unfold total. rewrite Hitems, total_of_split. f_equal. f_equal. f_equal.
    unfold quantity_or_one.
    destruct Hq as [-> | [-> | [[s ->] | ->]]]; reflexivity.
  - rewrite (mutationFn_validated f Hv), Ho, Hp, Hi, Hb, Hitems.
    pose proof (@kept_lines_nonempty (next_order_id (db w)) (catalog w)
                  before item after Hin) as Hne.
    assert (E : orderItems_of (next_order_id (db w)) (catalog w)
                              (before ++ item :: after)
                = orderItems_of (next_order_id (db w)) (catalog w) before
                  ++ [line_in_words (next_order_id (db w)) item]
                  ++ orderItems_of (next_order_id (db w)) (catalog w) after).
    { rewrite orderItems_of_app.
      change (item :: after) with ([item] ++ after).
      rewrite orderItems_of_app. f_equal. f_equal.
      rewrite orderItems_of_in_words. simpl.
      apply includes_In in Hin. now rewrite Hin. }
    destruct (orderItems_of _ _ (before ++ item :: after)) as [|l ls] eqn:El;
      [congruence |].
    destruct (clearError f); simpl; now rewrite E.
  - split; [repeat constructor |]. repeat split. discriminate.
Qed.

Lemma cart_quantity_default_witness :
  no_quantity (num 0) /\
  order_items
    (db (snd (mutationFn no_faults zero_quantity_page sample_world)))
  = [OrderItem.mk 1 (INum 1) (num 0) (of_Z 100)].
Proof.
  assert (Hq : no_quantity (num 0)).
  { right. right. left. exists false. reflexivity. }
  assert (Hv : validated zero_quantity_page sample_user sample_world).
  { unfold validated. repeat split; discriminate. }
  split; [exact Hq |].
  exact (proj1 (proj2
    (@cart_quantity_default no_faults zero_quantity_page sample_user
       sample_world [] [] (nth 0 zero_quantity_cart Item.empty)
       Hv eq_refl eq_refl Hq (or_introl eq_refl) eq_refl eq_refl eq_refl))).
Defined.

(* ================================================================== *)
(** * The item source *)

(** C8, as the code has it.  In the buy-now flow there is exactly one
    candidate: the supplied product with its quantity set.  The quantity
    is 1 when the supplied one is missing, [null], zero or NaN, and the
    supplied number itself otherwise, whatever its sign. *)
Theorem buy_now_item (p : Page) :
  isBuyNow p = true ->
  exists item,
    itemsForPayment p = [item] /\
    item = Item.set_quantity (Num (buyNowQuantity p))
             match product (buyNowState (location_state p)) with
             | Some prod => prod
             | None => Item.empty
             end /\
    Item.quantity item = Num (buyNowQuantity p) /\
    (no_quantity (quantity (buyNowState (location_state p))) ->
     buyNowQuantity p = of_Z 1) /\
    (forall x,
       nonzero_number (quantity (buyNowState (location_state p))) = Some x ->
       buyNowQuantity p = x).
Proof.
  intro Hb. exists (buyNowItem p).
  unfold itemsForPayment. rewrite Hb.
  split; [reflexivity |]. split; [reflexivity |]. split; [reflexivity |].
  unfold buyNowQuantity. split.
  - intros [-> | [-> | [[s ->] | ->]]]; reflexivity.
  - intros x Hx. rewrite num_or_lit_in_words, Hx. reflexivity.
Qed.

Lemma buy_now_item_witness :
  map Item.quantity (itemsForPayment (buy_now_page NUndefined)) = [num 1].
Proof.
  destruct (@buy_now_item (buy_now_page NUndefined) eq_refl)
    as (item & Hi & _ & Hq & H & _).
  rewrite Hi. simpl. rewrite Hq, H; [reflexivity |]. left. reflexivity.
Defined.

(** C8, as the specification has it, fails: a negative supplied quantity
    is not raised to 1. *)
Lemma buy_now_negative_quantity :
  isBuyNow (buy_now_page (num (-2))) = true /\
  map Item.quantity (itemsForPayment (buy_now_page (num (-2))))
  = [num (-2)] /\
  SFltb (of_Z (-2)) (of_Z 1) = true.
Proof.
  repeat split.
Qed.

(* ================================================================== *)
(** * A complete attempt *)

(** The sample cart checked out with no backend failure: one order of
    total 250 with two lines, the user's cart rows deleted, the other
    user's row kept, and the four calls made in order. *)
Example successful_cart_checkout :
  let out := handlePayment no_faults cod_page sample_world in
  fst out = toast_success (lit "Order placed successfully!") 1 /\
  map Order.total_amount (orders (db (snd out))) = [of_Z 250] /\
  order_items (db (snd out))
  = [ OrderItem.mk 1 (INum 1) (num 2) (of_Z 100);
      OrderItem.mk 1 (INum 2) (num 1) (of_Z 50) ] /\
  map CartRow.user_id (cart_items (db (snd out))) = [lit "user-2"] /\
  calls (snd out) = call_sequence.
Proof.
  repeat split.
Qed.

(* ================================================================== *)
(** * What an attempt leaves behind *)

(** An attempt is either turned down by a check, with nothing done, or
    passes all of them. *)
Lemma rejected_or_validated (f : Faults) (p : Page) (w : World) :
  (exists e, mutationFn f p w = (Thrown e, w) /\
             (e = Error (lit "Cart is empty") \/
              e = Error (lit "Please enter your address") \/
              e = Error (lit "Please enter your phone number") \/
              validate_payment p w = (Thrown e, w))) \/
  (exists u, validated p u w).
Proof.
  destruct (user p) as [u|] eqn:Hu.
  2: { left. exists (Error (lit "Cart is empty")).
       unfold mutationFn. rewrite Hu. auto. }
  destruct (itemsForPayment p) as [|i l] eqn:Hi.
  { left. exists (Error (lit "Cart is empty")).
    unfold mutationFn. rewrite Hu, Hi. auto. }
  assert (Hi' : itemsForPayment p <> []) by (rewrite Hi; discriminate).
  clear Hi.
  destruct (address p) as [|c a] eqn:Ha.
  { left. eexists. split; [apply (@mutationFn_no_address f p u w); auto |].
    auto. }
  assert (Ha' : address p <> []) by (rewrite Ha; discriminate). clear Ha.
  destruct (phone p) as [|c' a'] eqn:Hp.
  { left. eexists. split; [apply (@mutationFn_no_phone f p u w); auto |].
    auto. }
  assert (Hp' : phone p <> []) by (rewrite Hp; discriminate). clear Hp.
  destruct (validate_payment_cases p w) as [Hv | [e Hv]].
  - right. exists u. unfold validated. auto.
  - left. exists e.
    split; [apply (@mutationFn_invalid_payment f p u w e); auto |]. auto 6.
Qed.

Lemma orderItems_of_In oid valid items line :
  In line (orderItems_of oid valid items) ->
  exists item, In item items /\ In (resolved_id item) valid /\
               line = line_of oid item.
Proof.
  rewrite orderItems_of_filter, in_map_iff.
  intros (item & <- & H). apply filter_In in H as [H1 H2].
  apply includes_In in H2. eauto.
Qed.

(** X1. Whatever the outcome, an attempt never writes the catalogue,
    never removes or changes an order or a line that was there, adds at
    most one order, makes its calls after those already logged, and every
    line it adds refers to the order it added and to a product of the
    catalogue. *)
Theorem attempt_frame (f : Faults) (p : Page) (w : World) :
  let w' := snd (mutationFn f p w) in
  products (db w') = products (db w) /\
  exists new lines cs,
    orders (db w') = orders (db w) ++ new /\
    (List.length new <= 1)%nat /\
    order_items (db w') = order_items (db w) ++ lines /\
    calls w' = calls w ++ cs /\
    Forall (fun l => (exists o, In o new /\ OrderItem.order_id l = Order.id o)
                     /\ In (OrderItem.product_id l) (catalog w)) lines.
Proof.
  cbv zeta.
  destruct (rejected_or_validated f p w) as [(e & -> & _) | (u & Hv)].
  { split; [reflexivity |]. exists [], [], []. simpl.
    rewrite !app_nil_r. auto. }
  rewrite (mutationFn_validated f Hv).
  set (o := order_fields p u (next_order_id (db w))).
  assert (Hl : Forall
            (fun l => (exists o', In o' [o] /\
                                  OrderItem.order_id l = Order.id o')
                      /\ In (OrderItem.product_id l) (catalog w))
            (orderItems_of (next_order_id (db w)) (catalog w)
                           (itemsForPayment p))).
  { apply Forall_forall. intros l Hin.
    apply orderItems_of_In in Hin.
    destruct Hin as (item & _ & Hc & ->). split; [| exact Hc].
    exists o. split; [left; reflexivity | reflexivity]. }
  destruct (orderError f).
  { split; [reflexivity |]. exists [], [], [InsertOrder]. simpl.
    rewrite !app_nil_r. auto. }
  destruct (prodErr f).
  { split; [reflexivity |]. exists [o], [], [InsertOrder; SelectProductIds].
    simpl. rewrite app_nil_r, <- app_assoc. auto. }
  destruct (orderItems_of _ _ _) as [|l ls] eqn:El.
  { split; [reflexivity |]. exists [o], [], [InsertOrder; SelectProductIds].
    simpl. rewrite app_nil_r, <- app_assoc. auto. }
  destruct (itemsError f).
  { split; [reflexivity |].
    exists [o], [], [InsertOrder; SelectProductIds; InsertOrderItems].
    simpl. rewrite app_nil_r, <- !app_assoc. auto. }
  destruct (isBuyNow p).
  { split; [reflexivity |].
    exists [o], (l :: ls), [InsertOrder; SelectProductIds; InsertOrderItems].
    simpl. rewrite <- !app_assoc. auto. }
  destruct (clearError f); (split; [reflexivity |]);
    exists [o], (l :: ls), call_sequence;
    simpl; rewrite <- !app_assoc; auto.
Qed.

Lemma validate_payment_any_world p w w2 :
  validate_payment p w = (Returned tt, w) ->
  validate_payment p w2 = (Returned tt, w2).
Proof.
  unfold validate_payment, zod_parse, ret, throw.
  destruct (paymentMethod p).
  - destruct (upiSchema_issues _); [reflexivity | discriminate].
  - destruct (cardSchema_issues _ _ _); [reflexivity | discriminate].
  - destruct (negb _); [discriminate | reflexivity].
  - reflexivity.
Qed.

Lemma validated_any_world p u w w2 : validated p u w -> validated p u w2.
Proof.
  intros (Hu & Hi & Ha & Hp & Hv). unfold validated.
  repeat split; auto. exact (@validate_payment_any_world p w w2 Hv).
Qed.

(** What is known when the mutation returns. *)
Lemma returned_inv f p w o w' :
  mutationFn f p w = (Returned o, w') ->
  exists u,
    validated p u w /\
    orderError f = None /\ prodErr f = None /\ itemsError f = None /\
    (isBuyNow p = false -> clearError f = None) /\
    orderItems_of (next_order_id (db w)) (catalog w) (itemsForPayment p) <> [] /\
    o = order_fields p u (next_order_id (db w)) /\
    db w'
    = (if isBuyNow p then (fun d => d)
       else (fun d => snd (delete_cart_items (uid u) d)))
        (snd (insert_order_items
                (orderItems_of (next_order_id (db w)) (catalog w)
                               (itemsForPayment p))
                (snd (insert_order (order_fields p u) (db w))))).
Proof.
  intro H.
  destruct (rejected_or_validated f p w) as [(e & He & _) | (u & Hv)].
  { rewrite He in H. discriminate. }
  exists u. split; [exact Hv |].
  rewrite (mutationFn_validated f Hv) in H.
  destruct (orderError f); [discriminate |].
  destruct (prodErr f); [discriminate |].
  destruct (orderItems_of _ _ _) as [|l ls]; [discriminate |].
  destruct (itemsError f); [discriminate |].
  destruct (isBuyNow p).
  - injection H as <- <-. repeat split; auto; discriminate.
  - destruct (clearError f); [discriminate |].
    injection H as <- <-. repeat split; auto; discriminate.
Qed.

(** X2. When the mutation returns an order, that order is the one row
    added to [orders], filled from the page (user, total, method,
    "completed", "ordered", a non-empty address and phone); the lines
    added are the reconciled ones, at least one, all of that order; in the
    cart flow no cart row of the user is left, in the buy-now flow the
    cart is as it was; and the success toast carries the order's
    identity. *)
Theorem successful_attempt (f : Faults) (p : Page) (w w' : World)
    (o : Order.t) :
  mutationFn f p w = (Returned o, w') ->
  exists u lines,
    user p = Some u /\
    o = order_fields p u (next_order_id (db w)) /\
    Order.address o <> [] /\ Order.phone o <> [] /\
    orders (db w') = orders (db w) ++ [o] /\
    lines = orderItems_of (Order.id o) (catalog w) (itemsForPayment p) /\
    lines <> [] /\
    order_items (db w') = order_items (db w) ++ lines /\
    (isBuyNow p = false ->
     Forall (fun r => owned_by u r = false) (cart_items (db w'))) /\
    (isBuyNow p = true -> cart_items (db w') = cart_items (db w)) /\
    handlePayment f p w
    = (toast_success (lit "Order placed successfully!") (Order.id o), w').
Proof.
  intro H.
  destruct (@returned_inv f p w o w' H)
    as (u & Hv & _ & _ & _ & _ & Hl & Ho & Hdb).
  destruct Hv as (Hu & _ & Ha & Hp & _).
  exists u, (orderItems_of (Order.id o) (catalog w) (itemsForPayment p)).
  unfold handlePayment. rewrite H, Hdb. subst o. simpl.
  repeat match goal with |- _ /\ _ => split end; auto.
  - destruct (isBuyNow p); reflexivity.
  - destruct (isBuyNow p); reflexivity.
  - intros ->. simpl. apply Forall_forall. intros r Hr.
    apply filter_In in Hr as [_ Hr]. unfold owned_by.
    now apply negb_true_iff in Hr.
  - intros ->. reflexivity.
Qed.

Lemma successful_attempt_witness :
  exists lines,
    lines <> [] /\
    order_items (db (snd (mutationFn no_faults cod_page sample_world)))
    = lines.
Proof.
  destruct (@successful_attempt no_faults cod_page sample_world
              (snd (mutationFn no_faults cod_page sample_world))
              (order_fields cod_page sample_user 1) eq_refl)
    as (u & lines & _ & _ & _ & _ & _ & _ & Hne & Hl & _).
  exists lines. split; [exact Hne | exact Hl].
Defined.

Lemma filter_filter_same {A} (P : A -> bool) (l : list A) :
  filter P (filter P l) = filter P l.
Proof.
  induction l as [|a l IH]; simpl; [reflexivity |].
  destruct (P a) eqn:E; simpl; [rewrite E |]; now rewrite IH.
Qed.

(** X3. A failed attempt leaves the cart table as it was, and so does
    any buy-now attempt; and no attempt ever removes a cart row of
    another user. *)
Theorem cart_kept (f : Faults) (p : Page) (w : World) :
  let w' := snd (mutationFn f p w) in
  (forall e, fst (mutationFn f p w) = Thrown e ->
             cart_items (db w') = cart_items (db w)) /\
  (isBuyNow p = true -> cart_items (db w') = cart_items (db w)) /\
  (forall u, user p = Some u ->
     filter (fun r => negb (owned_by u r)) (cart_items (db w'))
     = filter (fun r => negb (owned_by u r)) (cart_items (db w))).
Proof.
  cbv zeta.
  destruct (rejected_or_validated f p w) as [(e & -> & _) | (u & Hv)].
  { auto. }
  assert (Hu : user p = Some u) by apply Hv.
  rewrite (mutationFn_validated f Hv).
  destruct (orderError f); [auto |].
  destruct (prodErr f); [auto |].
  destruct (orderItems_of _ _ _); [auto |].
  destruct (itemsError f); [auto |].
  destruct (isBuyNow p); [auto |].
  destruct (clearError f); [auto |]. simpl.
  split; [discriminate |]. split; [discriminate |].
  intros u' Hu'. rewrite Hu in Hu'. injection Hu' as <-.
  apply filter_filter_same.
Qed.

Lemma onError_Error_not_blank (e m : jsstring) :
  onError (Error e) = toast_error m -> m <> [].
Proof.
  simpl. destruct e as [|c e]; simpl; intro H; injection H as <-;
    discriminate.
Qed.

Lemma backend_error_not_blank (e m : jsstring) (w1 w2 : World) :
  (onError (Error e), w1) = (toast_error m, w2) -> m <> [].
Proof.
  intro H. apply (@onError_Error_not_blank e m).
  exact (f_equal fst H).
Qed.

Lemma validate_payment_error_not_blank p w e w' m :
  validate_payment p w = (Thrown e, w') ->
  onError e = toast_error m -> m <> [].
Proof.
  unfold validate_payment, zod_parse, ret, throw.
  destruct (paymentMethod p).
  - unfold upiSchema_issues, zod_regex. destruct (test _ _); [discriminate |].
    intro H. injection H as <- _. simpl. intro H. injection H as <-.
    discriminate.
  - unfold cardSchema_issues, zod_regex.
    destruct (test cardNumber_re _), (test expiry_re _), (test cvv_re _);
      simpl; intro H; try discriminate;
      injection H as <- _; simpl; intro H; injection H as <-; discriminate.
  - destruct (negb _); [| discriminate].
    intro H. injection H as <- _. apply onError_Error_not_blank.
  - discriminate.
Qed.

Lemma toast_message_not_blank (f : Faults) (p : Page) (w w' : World)
    (m : jsstring) :
  handlePayment f p w = (toast_error m, w') -> m <> [].
Proof.
  unfold handlePayment.
  destruct (rejected_or_validated f p w) as [(e & -> & He) | (u & Hv)].
  - intro H. injection H as H _.
    destruct He as [-> | [-> | [-> | He]]];
      try (apply (@onError_Error_not_blank _ m H)).
    exact (@validate_payment_error_not_blank p w e w m He H).
  - rewrite (mutationFn_validated f Hv).
    destruct (orderError f);
      [exact (@backend_error_not_blank _ m _ w') |].
    destruct (prodErr f);
      [exact (@backend_error_not_blank _ m _ w') |].
    destruct (orderItems_of _ _ _);
      [exact (@backend_error_not_blank _ m _ w') |].
    destruct (itemsError f);
      [exact (@backend_error_not_blank _ m _ w') |].
    destruct (isBuyNow p); [discriminate |].
    destruct (clearError f); [| discriminate].
    exact (@backend_error_not_blank _ m _ w').
Qed.

Lemma attempt_cases (f : Faults) (p : Page) (w : World) :
  (mutationFn f p w = (Thrown (Error (lit "Cart is empty")), w) /\
   (user p = None \/ itemsForPayment p = [])) \/
  (mutationFn f p w = (Thrown (Error (lit "Please enter your address")), w) /\
   address p = []) \/
  (mutationFn f p w
   = (Thrown (Error (lit "Please enter your phone number")), w) /\
   phone p = []) \/
  (exists e, mutationFn f p w = (Thrown e, w) /\
             validate_payment p w = (Thrown e, w)) \/
  (exists u, validated p u w).
Proof.
  destruct (user p) as [u|] eqn:Hu.
  2: { left. split; [| auto]. unfold mutationFn. now rewrite Hu. }
  destruct (itemsForPayment p) as [|i l] eqn:Hi.
  { left. split; [| auto]. unfold mutationFn. now rewrite Hu, Hi. }
  assert (Hi' : itemsForPayment p <> []) by (rewrite Hi; discriminate).
  clear Hi.
  destruct (address p) as [|c a] eqn:Ha.
  { right. left. split; [| reflexivity].
    apply (@mutationFn_no_address f p u w); auto. }
  assert (Ha' : address p <> []) by (rewrite Ha; discriminate). clear Ha.
  destruct (phone p) as [|c' a'] eqn:Hp.
  { right. right. left. split; [| reflexivity].
    apply (@mutationFn_no_phone f p u w); auto. }
  assert (Hp' : phone p <> []) by (rewrite Hp; discriminate). clear Hp.
  destruct (validate_payment_cases p w) as [Hv | [e Hv]].
  - right. right. right. right. exists u. unfold validated. auto.
  - right. right. right. left. exists e.
    split; [apply (@mutationFn_invalid_payment f p u w e); auto | auto].
Qed.

Lemma validate_payment_thrown p w e w' :
  validate_payment p w = (Thrown e, w') ->
  (paymentMethod p = upi /\
   exists i rest, upiSchema_issues (upiId p) = i :: rest /\
                  e = ZodError i rest) \/
  (paymentMethod p = card /\
   exists i rest,
     cardSchema_issues (cardNumber p) (expiry p) (cvv p) = i :: rest /\
     e = ZodError i rest) \/
  (paymentMethod p = netbanking /\ selectedBank p = [] /\
   e = Error (lit "Please select a bank")).
Proof.
  unfold validate_payment, zod_parse, ret, throw.
  destruct (paymentMethod p).
  - destruct (upiSchema_issues _) as [|i rest]; [discriminate |].
    intro H. injection H as <- _. left. eauto.
  - destruct (cardSchema_issues _ _ _) as [|i rest]; [discriminate |].
    intro H. injection H as <- _. right. left. eauto.
  - destruct (selectedBank p) as [|c b]; simpl; [| discriminate].
    intro H. injection H as <- _. right. right. auto.
  - discriminate.
Qed.

(** X4. The message of an error toast is never empty, and it is one
    of: the message of the failed check, under that check's condition
    ("Cart is empty", the address, the phone, the bank); the first
    issue of the schema of the selected method; "No valid products found
    for this order" when every candidate is discarded; or the message of
    a failing backend call, replaced by "Failed to place order" when it
    is empty. *)
Theorem error_toast_not_blank (f : Faults) (p : Page) (w w' : World)
    (m : jsstring) :
  handlePayment f p w = (toast_error m, w') ->
  m <> [] /\
  ((m = lit "Cart is empty" /\ (user p = None \/ itemsForPayment p = [])) \/
   (m = lit "Please enter your address" /\ address p = []) \/
   (m = lit "Please enter your phone number" /\ phone p = []) \/
   (m = lit "Please select a bank" /\
    paymentMethod p = netbanking /\ selectedBank p = []) \/
   (paymentMethod p = upi /\
    exists rest, upiSchema_issues (upiId p) = m :: rest) \/
   (paymentMethod p = card /\
    exists rest,
      cardSchema_issues (cardNumber p) (expiry p) (cvv p) = m :: rest) \/
   (m = lit "No valid products found for this order" /\
    Forall (discarded (catalog w)) (itemsForPayment p)) \/
   (exists e,
      In (Some e) [orderError f; prodErr f; itemsError f; clearError f] /\
      m = if str_truthy e then e else lit "Failed to place order")).
Proof.
  intro H. split; [exact (@toast_message_not_blank f p w w' m H) |].
  unfold handlePayment in H.
  destruct (attempt_cases f p w)
    as [[E C] | [[E C] | [[E C] | [(e & E & Hv) | (u & Hv)]]]].
  - rewrite E in H. injection H as <- _. auto.
  - rewrite E in H. injection H as <- _. auto.
  - rewrite E in H. injection H as <- _. auto.
  - rewrite E in H.
    destruct (@validate_payment_thrown p w e w Hv)
      as [(Hm & i & rest & Hi & ->) | [(Hm & i & rest & Hi & ->)
                                       | (Hm & Hb & ->)]].
    + injection H as <- _. right. right. right. right. left. eauto.
    + injection H as <- _. right. right. right. right. right. left. eauto.
    + injection H as <- _. right. right. right. left. auto.
  - rewrite (mutationFn_validated f Hv) in H.
    assert (Hback : forall e, In (Some e) [orderError f; prodErr f;
                                           itemsError f; clearError f] ->
              forall w1, (onError (Error e), w1) = (toast_error m, w') ->
              exists e',
                In (Some e') [orderError f; prodErr f; itemsError f;
                              clearError f] /\
                m = if str_truthy e' then e' else lit "Failed to place order").
    { intros e Hin w1 Heq. exists e. split; [exact Hin |].
      apply (f_equal fst) in Heq. simpl in Heq. now injection Heq. }
    destruct (orderError f) as [e|] eqn:E1.
    { do 7 right. apply (Hback e (or_introl eq_refl) _ H). }
    destruct (prodErr f) as [e|] eqn:E2.
    { do 7 right. apply (Hback e (or_intror (or_introl eq_refl)) _ H). }
    destruct (orderItems_of _ _ _) eqn:El.
    { injection H as <- _. do 6 right. left. split; [reflexivity |].
      now apply orderItems_of_nil_iff in El. }
    destruct (itemsError f) as [e|] eqn:E3.
    { do 7 right.
      apply (Hback e (or_intror (or_intror (or_introl eq_refl))) _ H). }
    destruct (isBuyNow p); [discriminate |].
    destruct (clearError f) as [e|] eqn:E4; [| discriminate].
    do 7 right.
    apply (Hback e (or_intror (or_intror (or_intror (or_introl eq_refl))))
             _ H).
Qed.

Lemma error_toast_not_blank_witness :
  lit "Please enter your address" <> [].
Proof.
  exact (proj1 (@error_toast_not_blank no_faults missing_address_page
                  sample_world sample_world
                  (lit "Please enter your address") eq_refl)).
Defined.

(** X5. Nothing stops a second attempt: when the page state is
    submitted again after a successful attempt (the backend answering
    every call), a second order with the same fields and the same lines is
    written under the next identity. *)
Theorem second_attempt_second_order (f : Faults) (p : Page) (u : User)
    (w : World) :
  validated p u w ->
  all_succeed f ->
  orderItems_of (next_order_id (db w)) (catalog w) (itemsForPayment p) <> [] ->
  let n := next_order_id (db w) in
  let w1 := snd (mutationFn f p w) in
  let w2 := snd (mutationFn f p w1) in
  fst (mutationFn f p w1) = Returned (order_fields p u (N.succ n)) /\
  orders (db w2)
  = orders (db w) ++ [order_fields p u n; order_fields p u (N.succ n)] /\
  order_items (db w2)
  = order_items (db w)
    ++ orderItems_of n (catalog w) (itemsForPayment p)
    ++ orderItems_of (N.succ n) (catalog w) (itemsForPayment p).
Proof.
  intros Hv (Ho & Hp & Hi & Hc) Hl. cbv zeta.
  assert (Hl2 : orderItems_of (N.succ (next_order_id (db w))) (catalog w)
                              (itemsForPayment p) <> []).
  { rewrite orderItems_of_nil_iff in *. exact Hl. }
  rewrite (mutationFn_validated f Hv), Ho, Hp, Hi, Hc.
  destruct (orderItems_of (next_order_id (db w)) _ _) as [|l ls] eqn:El;
    [congruence |].
  destruct (isBuyNow p) eqn:Hb; simpl snd;
    match goal with
    | |- context [mutationFn f p ?w1] =>
        rewrite (mutationFn_validated f (@validated_any_world p u w w1 Hv))
    end;
    rewrite Ho, Hp, Hi, Hc, Hb; unfold catalog in *; simpl in *;
    destruct (orderItems_of (N.succ (next_order_id (db w))) _ _)
      as [|l2 ls2] eqn:El2; try congruence;
    simpl; rewrite <- !app_assoc; auto.
Qed.

Lemma second_attempt_second_order_witness :
  map Order.id
      (orders
         (db (snd (mutationFn no_faults cod_page
                     (snd (mutationFn no_faults cod_page sample_world))))))
  = [1%N; 2%N].
Proof.
  assert (Ha : all_succeed no_faults) by (repeat split).
  assert (Hl : orderItems_of (next_order_id (db sample_world))
                 (catalog sample_world) (itemsForPayment cod_page) <> [])
    by discriminate.
  destruct (@second_attempt_second_order no_faults cod_page sample_user
              sample_world sample_validated Ha Hl) as (_ & H & _).
  rewrite H. reflexivity.
Defined.

Lemma successful_attempt_facts f p w o w' :
  mutationFn f p w = (Returned o, w') ->
  exists u, user p = Some u /\
            (isBuyNow p = false ->
             Forall (fun r => owned_by u r = false) (cart_items (db w'))).
Proof.
  intro H.
  destruct (@returned_inv f p w o w' H)
    as (u & Hv & _ & _ & _ & _ & _ & _ & Hdb).
  exists u. split; [apply Hv |].
  rewrite Hdb. intros ->. simpl. apply Forall_forall. intros r Hr.
  apply filter_In in Hr as [_ Hr]. unfold owned_by.
  now apply negb_true_iff in Hr.
Qed.

Lemma cart_unchanged_on_failure f p w e :
  fst (mutationFn f p w) = Thrown e ->
  cart_items (db (snd (mutationFn f p w))) = cart_items (db w).
Proof.
  destruct (rejected_or_validated f p w) as [(e' & -> & _) | (u & Hv)];
    [reflexivity |].
  rewrite (mutationFn_validated f Hv).
  destruct (orderError f); [reflexivity |].
  destruct (prodErr f); [reflexivity |].
  destruct (orderItems_of _ _ _); [reflexivity |].
  destruct (itemsError f); [reflexivity |].
  destruct (isBuyNow p); [reflexivity |].
  destruct (clearError f); [reflexivity | discriminate].
Qed.

(** X6. After a successful attempt the cart query of the same page
    finds nothing; after a failed one it answers what it would have
    answered before. *)
Theorem cart_query_after_attempt (f : Faults) (p : Page) (w : World) :
  let w' := snd (mutationFn f p w) in
  (forall o, fst (mutationFn f p w) = Returned o ->
             queryFn None p (db w') = Returned []) /\
  (forall e error, fst (mutationFn f p w) = Thrown e ->
                   queryFn error p (db w') = queryFn error p (db w)).
Proof.
  cbv zeta. split.
  - intros o Ho.
    destruct (mutationFn f p w) as [r w'] eqn:E. simpl in Ho. subst r.
    simpl snd.
    destruct (@successful_attempt_facts f p w o w' E)
      as (u & Hu & Hcart).
    unfold queryFn. rewrite Hu.
    destruct (isBuyNow p) eqn:Hb; [reflexivity |].
    specialize (Hcart eq_refl). f_equal.
    induction Hcart as [|r l Hr _ IH]; simpl; [reflexivity |].
    now rewrite Hr.
  - intros e error He. unfold queryFn.
    now rewrite (@cart_unchanged_on_failure f p w e He).
Qed.

(* ================================================================== *)
(** * The cart query and the early returns *)

(** X7. The cart query answers with no rows exactly where it is not
    enabled (no user, or buy-now), whatever the table holds; where it is
    enabled a failing select is thrown; and the rows it returns are the
    rows of the page's user and no one else's. *)
Theorem cart_query_scope (error : option jsstring) (p : Page) (d : DB) :
  (query_enabled p = false -> queryFn error p d = Returned []) /\
  (query_enabled p = true ->
   forall e, error = Some e -> queryFn error p d = Thrown (Error e)) /\
  (forall items,
     queryFn error p d = Returned items ->
     forall item,
       In item items <->
       exists u r, user p = Some u /\ isBuyNow p = false /\
                   In r (cart_items d) /\
                   CartRow.user_id r = uid u /\ CartRow.row r = item).
Proof.
  unfold query_enabled, queryFn.
  destruct (user p) as [u|]; [destruct (isBuyNow p) |]; simpl.
  - split; [reflexivity |]. split; [discriminate |].
    intros items H item. injection H as <-. split; [contradiction |].
    intros (u' & r & _ & Hb & _). discriminate.
  - split; [discriminate |]. split; [intros _ e ->; reflexivity |].
    intros items H item. destruct error; [discriminate |].
    injection H as <-. rewrite in_map_iff. split.
    + intros (r & <- & Hr). apply filter_In in Hr as [Hin Ho].
      apply jsstring_eqb_eq in Ho. exists u, r. auto.
    + intros (u' & r & Hu & _ & Hin & Ho & <-). injection Hu as <-.
      exists r. split; [reflexivity |]. apply filter_In.
      split; [assumption | now apply jsstring_eqb_eq].
  - split; [reflexivity |]. split; [discriminate |].
    intros items H item. injection H as <-. split; [contradiction |].
    intros (u' & r & Hu & _). discriminate.
Qed.

(** X8. The component navigates to "/signin" exactly when there is no
    user, and to "/cart" exactly when a user in the cart flow has no
    loaded cart row; it never navigates to "/products".  With a user the
    buy-now flow always shows the form, for exactly one candidate, even
    when no product was handed over. *)
Theorem render_targets (p : Page) :
  (render p = navigate (lit "/signin") <-> user p = None) /\
  (render p = navigate (lit "/cart") <->
   user p <> None /\ isBuyNow p = false /\
   (cartItems p = None \/ cartItems p = Some [])) /\
  render p <> navigate (lit "/products") /\
  (user p <> None -> isBuyNow p = true ->
   render p = form /\ exists item, itemsForPayment p = [item]).
Proof.
  unfold render, itemsForPayment.
  destruct (user p) as [u|]; [| repeat split; try discriminate; tauto].
  destruct (isBuyNow p); simpl.
  - repeat split; try discriminate; try tauto; eauto;
      intuition discriminate.
  - destruct (cartItems p) as [[|i l]|]; simpl;
      repeat split; try discriminate; auto; intuition discriminate.
Qed.

(** X9. Without a user, or with nothing to pay for, the mutation fails
    with "Cart is empty" before any other check and without a backend
    call; such a page never shows the form, so the button cannot start
    this from the rendered page. *)
Theorem cart_is_empty_guard (f : Faults) (p : Page) (w : World) :
  user p = None \/ itemsForPayment p = [] ->
  handlePayment f p w = (toast_error (lit "Cart is empty"), w) /\
  render p <> form.
Proof.
  intro H. split.
  - unfold handlePayment, mutationFn.
    destruct (user p) as [u|]; [| reflexivity].
    destruct H as [H | ->]; [discriminate | reflexivity].
  - intro Hr. destruct (render_form p Hr) as (u & Hu & Hi).
    destruct H as [H | H]; congruence.
Qed.

Lemma cart_is_empty_guard_witness :
  handlePayment no_faults signed_out_page sample_world
  = (toast_error (lit "Cart is empty"), sample_world).
Proof.
  apply (@cart_is_empty_guard no_faults signed_out_page sample_world).
  left. reflexivity.
Defined.

(* ================================================================== *)
(** * Counting the lines *)

(** X12. Reconciliation splits the candidates in two: the lines and the
    discarded candidates count up to the candidates; there is no line
    exactly when every candidate is discarded; and a larger catalogue
    keeps every line a smaller one keeps. *)
Theorem reconciliation_count (oid : N) (valid : list jsid)
    (items : list Item.t) :
  (List.length (orderItems_of oid valid items)
   + List.length (filter (fun item => negb (includes valid (resolved_id item)))
                         items)
   = List.length items)%nat /\
  (orderItems_of oid valid items = [] <-> Forall (discarded valid) items) /\
  (forall valid', incl valid valid' ->
     forall line, In line (orderItems_of oid valid items) ->
                  In line (orderItems_of oid valid' items)).
Proof.
  split; [| split].
  - rewrite orderItems_of_filter, length_map.
    induction items as [|item items IH]; [reflexivity |]. simpl.
    destruct (includes valid (resolved_id item)); simpl; lia.
  - apply orderItems_of_nil_iff.
  - intros valid' Hincl line Hin.
    apply orderItems_of_In in Hin as (item & Hi & Hv & ->).
    rewrite orderItems_of_filter. apply in_map, filter_In.
    split; [assumption |]. apply includes_In. now apply Hincl.
Qed.

(* ================================================================== *)
(** * Characters and the card-number input *)

Lemma space_false_between (c : N) : (33 <= c <= 159)%N -> space c = false.
Proof.
  intro H. unfold space.
  assert (E1 : (c <=? 13)%N = false) by (apply N.leb_gt; lia).
  assert (E2 : (c =? 32)%N = false) by (apply N.eqb_neq; lia).
  assert (E3 : (c =? 160)%N = false) by (apply N.eqb_neq; lia).
  assert (E4 : (c =? 5760)%N = false) by (apply N.eqb_neq; lia).
  assert (E5 : (8192 <=? c)%N = false) by (apply N.leb_gt; lia).
  assert (E6 : (c =? 8232)%N = false) by (apply N.eqb_neq; lia).
  assert (E7 : (c =? 8233)%N = false) by (apply N.eqb_neq; lia).
  assert (E8 : (c =? 8239)%N = false) by (apply N.eqb_neq; lia).
  assert (E9 : (c =? 8287)%N = false) by (apply N.eqb_neq; lia).
  assert (E10 : (c =? 12288)%N = false) by (apply N.eqb_neq; lia).
  assert (E11 : (c =? 65279)%N = false) by (apply N.eqb_neq; lia).
  rewrite E1, E2, E3, E4, E5, E6, E7, E8, E9, E10, E11.
  now rewrite andb_false_r.
Qed.

Lemma digit_range (c : N) : digit c = true <-> (48 <= c <= 57)%N.
Proof.
  unfold digit. apply in_range_iff.
Qed.

Lemma word_dot_dash_range (c : N) :
  word_dot_dash c = true -> (45 <= c <= 122)%N /\ c <> 64%N.
Proof.
  unfold word_dot_dash, word, digit.
  rewrite !orb_true_iff, !in_range_iff, !N.eqb_eq.
  change (N_of_ascii "A") with 65%N. change (N_of_ascii "Z") with 90%N.
  change (N_of_ascii "a") with 97%N. change (N_of_ascii "z") with 122%N.
  change (N_of_ascii "0") with 48%N. change (N_of_ascii "9") with 57%N.
  change (N_of_ascii "_") with 95%N. change (N_of_ascii ".") with 46%N.
  change (N_of_ascii "-") with 45%N.
  lia.
Qed.

Lemma filter_id_iff {A} (P : A -> bool) (l : list A) :
  filter P l = l <-> forallb P l = true.
Proof.
  induction l as [|a l IH]; simpl; [tauto |].
  destruct (P a) eqn:E; simpl.
  - rewrite <- IH. split; [intro H; now injection H | intros ->; reflexivity].
  - split; [| discriminate]. intro H.
    assert (Hl : (List.length (filter P l) <= List.length l)%nat)
      by apply filter_length_le.
    rewrite H in Hl. simpl in Hl. lia.
Qed.

Lemma filter_filter_implied {A} (P Q : A -> bool) (l : list A) :
  (forall a, P a = true -> Q a = true) ->
  filter P (filter Q l) = filter P l.
Proof.
  intro H. induction l as [|a l IH]; simpl; [reflexivity |].
  destruct (Q a) eqn:EQ; simpl.
  - now rewrite IH.
  - destruct (P a) eqn:EP; [| exact IH].
    apply H in EP. congruence.
Qed.

(** X13. The card-number input keeps the typed characters that are not
    whitespace, in their order: feeding it its own result changes
    nothing, it is the identity exactly on texts without whitespace, it
    works piece by piece, it never lengthens the text, and it loses no
    digit. *)
Theorem cardNumber_onChange_strip (value : jsstring) :
  cardNumber_onChange (cardNumber_onChange value) = cardNumber_onChange value /\
  (cardNumber_onChange value = value <->
   forallb (fun c => negb (space c)) value = true) /\
  (forall more, cardNumber_onChange (value ++ more)
                = cardNumber_onChange value ++ cardNumber_onChange more) /\
  (List.length (cardNumber_onChange value) <= List.length value)%nat /\
  filter digit (cardNumber_onChange value) = filter digit value.
Proof.
  unfold cardNumber_onChange. repeat split.
  - apply filter_filter_same.
  - apply filter_id_iff.
  - apply filter_id_iff.
  - intro more. apply filter_app.
  - apply filter_length_le.
  - apply filter_filter_implied. intros c Hc.
    apply digit_range in Hc. rewrite space_false_between; [reflexivity | lia].
Qed.

(** X14. A UPI id that passes the schema holds exactly one "@", is at
    least three characters long and has no whitespace. *)
Theorem upiId_shape (s : jsstring) :
  test upiId_re s = true ->
  count_occ N.eq_dec s (N_of_ascii "@") = 1%nat /\
  (3 <= List.length s)%nat /\
  forallb (fun c => negb (space c)) s = true.
Proof.
  intro H. apply upiId_re_spec in H.
  destruct H as (l & d & -> & Hl & Hd & Hlc & Hdc).
  assert (Hcount : forall t, forallb word_dot_dash t = true ->
                             count_occ N.eq_dec t 64%N = 0%nat).
  { intros t Ht. apply count_occ_not_In. intro Hin.
    rewrite forallb_forall in Ht.
    destruct (@word_dot_dash_range _ (Ht _ Hin)) as [_ Hne]. congruence. }
  assert (Hspace : forall t, forallb word_dot_dash t = true ->
                             forallb (fun c => negb (space c)) t = true).
  { intros t Ht. rewrite forallb_forall in *. intros c Hin.
    destruct (@word_dot_dash_range _ (Ht _ Hin)) as [Hr _].
    rewrite space_false_between; [reflexivity | lia]. }
  change (N_of_ascii "@") with 64%N. change (lit "@") with [64%N].
  repeat split.
  - rewrite !count_occ_app, (Hcount l Hlc), (Hcount d Hdc). reflexivity.
  - rewrite !length_app. simpl.
    destruct l; [congruence |]. destruct d; [congruence |]. simpl. lia.
  - rewrite !forallb_app, (Hspace l Hlc), (Hspace d Hdc). reflexivity.
Qed.

Lemma upiId_shape_witness :
  count_occ N.eq_dec (lit "user@bank") (N_of_ascii "@") = 1%nat.
Proof.
  exact (proj1 (@upiId_shape (lit "user@bank") eq_refl)).
Defined.



(* ================================================================== *)
(** * Buy-now without a product *)

(** X16. When the buy-now flow is entered without a product, the form
    is still shown; the one candidate has no identity and no price, so,
    the quantity not being an infinity, the total is 0, and, the
    catalogue holding no [undefined] identity, a submitted attempt writes
    a header of total 0 and then fails with "No valid products found for
    this order", without a line. *)
Theorem buy_now_without_product (f : Faults) (p : Page) (u : User)
    (w : World) :
  validated p u w ->
  isBuyNow p = true -> buyNowProduct p = None ->
  not_infinite (quantity (buyNowState (location_state p))) ->
  ~ In IUndefined (catalog w) ->
  orderError f = None -> prodErr f = None ->
  let w' := snd (mutationFn f p w) in
  render p = form /\
  total p = of_Z 0 /\
  handlePayment f p w
  = (toast_error (lit "No valid products found for this order"), w') /\
  orders (db w') = orders (db w) ++ [order_fields p u (next_order_id (db w))] /\
  order_items (db w') = order_items (db w).
Proof.
  intros Hv Hb Hprod Hfin Hcat Ho Hp. cbv zeta.
  assert (Hitems : itemsForPayment p
                   = [Item.set_quantity (Num (buyNowQuantity p)) Item.empty]).
  { unfold itemsForPayment, buyNowItem. now rewrite Hb, Hprod. }
  assert (Hd : Forall (discarded (catalog w)) (itemsForPayment p)).
  { rewrite Hitems. constructor; [| constructor].
    unfold discarded.
    change (resolved_id (Item.set_quantity (Num (buyNowQuantity p)) Item.empty))
      with IUndefined.
    destruct (includes (catalog w) IUndefined) eqn:E; [| reflexivity].
    apply includes_In in E. contradiction. }
  split.
  { unfold render. destruct Hv as (-> & _). rewrite Hb. simpl.
    rewrite Hitems. reflexivity. }
  split.
  { unfold total. rewrite Hitems. unfold buyNowQuantity, not_infinite in *.
    destruct (quantity (buyNowState (location_state p))) as [| |x];
      try reflexivity.
    destruct x as [s | s | | s m e].
    - destruct s; reflexivity.
    - exfalso. now apply (Hfin s).
    - reflexivity.
    - destruct s; reflexivity. }
  unfold handlePayment.
  rewrite (mutationFn_validated f Hv), Ho, Hp.
  rewrite (orderItems_of_discarded _ Hd). simpl.
  repeat split.
Qed.

Lemma buy_now_without_product_witness :
  validated buy_now_no_product_page sample_user sample_world /\
  fst (handlePayment no_faults buy_now_no_product_page sample_world)
  = toast_error (lit "No valid products found for this order").
Proof.
  assert (Hv : validated buy_now_no_product_page sample_user sample_world).
  { unfold validated. repeat split; discriminate. }
  assert (Hc : ~ In IUndefined (catalog sample_world)).
  { simpl. intros [H | [H | H]]; try discriminate; contradiction. }
  assert (Hf : not_infinite
                 (quantity (buyNowState
                              (location_state buy_now_no_product_page)))).
  { intros s. discriminate. }
  split; [exact Hv |].
  destruct (@buy_now_without_product no_faults buy_now_no_product_page
              sample_user sample_world Hv eq_refl eq_refl Hf Hc
              eq_refl eq_refl)
    as (_ & _ & H & _).
  now rewrite H.
Defined.
